(** * 3D Character Shop API: the catalog, the seed helper and the mock checkout

    A shallow embedding of [src/main.py] and [src/schemas.py].  The endpoint
    functions are written as functions over an explicit database handle
    ([None] when the process has no database configured) and return their
    response together with the handle afterwards, so that reads and writes
    are visible in the types.

    A Python [str] is kept as the bytes of its UTF-8 encoding (a [string]
    of [ascii]); slicing counts characters, the pattern matcher of the
    store is modelled on single-byte text; Python integers are [Z]; Python
    floats are the kernel's binary64 numbers. *)

From Stdlib Require Import ZArith NArith Ascii String List Bool Floats Lia.
From stdpp Require Import base decidable option list gmap strings.

Set Default Proof Using "Type".

(* ===================================================================== *)
(** ** Python values used by the endpoints *)
(* ===================================================================== *)

Module Py.

(** Truthiness of an [Optional[str]]: [None] and the empty string are falsy. *)
Definition truthy (o : option string) : bool :=
  match o with
  | None => false
  | Some EmptyString => false
  | Some (String _ _) => true
  end.

(** [a or b] on two optional strings. *)
Definition or_ (a b : option string) : option string :=
  if truthy a then a else b.

(** [float(n)] for an integer [n]: the nearest binary64 number (ties to
    even); integers that round beyond the largest finite float raise
    [OverflowError], which is the [None] here. *)
Definition float_of_int (n : Z) : option float :=
  match SpecFloat.binary_normalize prec emax n 0 false with
  | SpecFloat.S754_infinity _ => None
  | sf => Some (SF2Prim sf)
  end.

(** [x * n] for a float [x] and an integer [n]: the integer is converted
    first, and the conversion may raise. *)
Definition float_mul_int (x : float) (n : Z) : option float :=
  match float_of_int n with
  | Some y => Some (x * y)%float
  | None => None
  end.

End Py.

(* ===================================================================== *)
(** ** Characters: case folding and hexadecimal digits *)
(* ===================================================================== *)

Module Text.

Definition chars (s : string) : list ascii := list_ascii_of_string s.

Definition is_upper (c : ascii) : bool :=
  let n := N_of_ascii c in ((65 <=? n) && (n <=? 90))%N.

Definition is_lower (c : ascii) : bool :=
  let n := N_of_ascii c in ((97 <=? n) && (n <=? 122))%N.

Definition is_digit (c : ascii) : bool :=
  let n := N_of_ascii c in ((48 <=? n) && (n <=? 57))%N.

Definition is_alnum (c : ascii) : bool :=
  is_upper c || is_lower c || is_digit c.

Definition to_lower (c : ascii) : ascii :=
  if is_upper c then ascii_of_N (N_of_ascii c + 32) else c.

Fixpoint lower (s : string) : string :=
  match s with
  | EmptyString => EmptyString
  | String c r => String (to_lower c) (lower r)
  end.

(** [0-9], [a-f] or [A-F]. *)
Definition is_hex (c : ascii) : bool :=
  let n := N_of_ascii c in
  (((48 <=? n) && (n <=? 57)) || ((97 <=? n) && (n <=? 102))
   || ((65 <=? n) && (n <=? 70)))%N.

(** [0-9] or [a-f]: the digits [binascii.hexlify] produces. *)
Definition is_lower_hex (c : ascii) : bool :=
  let n := N_of_ascii c in
  (((48 <=? n) && (n <=? 57)) || ((97 <=? n) && (n <=? 102)))%N.

(** ASCII whitespace: space, tab, line feed, vertical tab, form feed,
    carriage return. *)
Definition is_space (c : ascii) : bool :=
  let n := N_of_ascii c in ((n =? 32) || ((9 <=? n) && (n <=? 13)))%N.

(** A byte that continues a UTF-8 character ([10xxxxxx]); every other byte
    starts one. *)
Definition is_continuation (c : ascii) : bool :=
  let n := N_of_ascii c in ((128 <=? n) && (n <=? 191))%N.

End Text.

(* ===================================================================== *)
(** ** bson.ObjectId *)
(* ===================================================================== *)

Module Bson.

(** An ObjectId wraps a byte string: twelve bytes for every id the store
    assigns, fewer when the text it was made from had whitespace in it.
    The model keeps the bytes in their hexadecimal rendering, the lower-case
    digits that [str()] prints (24 of them for twelve bytes); two ObjectIds
    are equal when these renderings are. *)
Record ObjectId := mkObjectId { hexlify : string }.

#[global] Instance ObjectId_eq_dec : EqDecision ObjectId.
Proof. solve_decision. Defined.

(** [bytes.fromhex] on the characters of a string: ASCII whitespace is
    skipped in front of each pair of hexadecimal digits; any other
    character, whitespace inside a pair, or a last digit without its pair
    is a [ValueError], the [None] here.  The bytes come back in their
    lower-case hexadecimal rendering. *)
Fixpoint fromhex (s : list ascii) : option (list ascii) :=
  match s with
  | [] => Some []
  | c :: r =>
      if Text.is_space c then fromhex r
      else if Text.is_hex c then
        match r with
        | c' :: r' =>
            if Text.is_hex c' then
              (λ t, Text.to_lower c :: Text.to_lower c' :: t) <$> fromhex r'
            else None
        | [] => None
        end
      else None
  end.

(** [ObjectId.is_valid(s)] for a string: [ObjectId(s)] does not raise,
    that is, [s] has 24 characters and [bytes.fromhex(s)] reads it.  (A
    character outside ASCII makes [fromhex] fail, so counting bytes or
    characters makes no difference.) *)
Definition is_valid (s : string) : bool :=
  (String.length s =? 24)%nat &&
  match fromhex (Text.chars s) with
  | Some _ => true
  | None => false
  end.

(** [ObjectId(s)] for a valid [s]: the bytes [bytes.fromhex(s)] reads. *)
Definition of_str (s : string) : ObjectId :=
  mkObjectId (string_of_list_ascii (default [] (fromhex (Text.chars s)))).

(** [str(oid)]. *)
Definition str (o : ObjectId) : string := hexlify o.

(** A string is the canonical text of an ObjectId when [str] gives it back. *)
Definition canonical (s : string) : Prop :=
  is_valid s = true /\ str (of_str s) = s.

End Bson.

(* ===================================================================== *)
(** ** schemas.py *)
(* ===================================================================== *)

Module Schemas.

(** [CharacterModel], collection "charactermodel". *)
Record CharacterModel := {
  name : string;
  description : option string;
  price : float;
  thumbnail_url : option string;
  preview_url : option string;
  tags : list string;
  formats : list string;
  polycount : option string;
  rigged : bool;
  animated : bool;
  rating : option float;
  downloads : Z
}.

(** The constraints the schema puts on a record: [price >= 0],
    [0 <= rating <= 5], [downloads >= 0], and URLs that are not empty. *)
Definition url_ok (u : option string) : Prop := u <> Some EmptyString.

(** The numeric [Field] constraints of [CharacterModel]: [price] has
    [ge=0], [rating] has [ge=0, le=5] when given, [downloads] has [ge=0]. *)
Definition constraints_hold (m : CharacterModel) : bool :=
  (0 <=? price m)%float &&
  match rating m with
  | Some r => (0 <=? r)%float && (r <=? 5)%float
  | None => true
  end &&
  (0 <=? downloads m)%Z.

End Schemas.

(* ===================================================================== *)
(** ** The store's regular-expression operator *)
(* ===================================================================== *)

Module Regex.
Import Text.

(** [$regex] hands its pattern to the store's regular-expression engine.
    The model covers the fragment of the pattern language made of ordinary
    characters, the dot, and a backslash in front of a character that is
    not a letter or a digit; [compile] answers [None] for every other
    pattern (quantifiers, groups, classes, anchors, alternation, escapes
    such as [\d]), whose meaning is not described here. *)
Inductive atom :=
  | Lit (c : ascii)
  | Dot.

Definition metachars : list ascii :=
  chars "\^$.|?*+()[]{}".

Definition is_meta (c : ascii) : bool :=
  existsb (Ascii.eqb c) metachars.

Fixpoint compile (p : list ascii) : option (list atom) :=
  match p with
  | [] => Some []
  | c :: r =>
      if Ascii.eqb c "." then cons Dot <$> compile r
      else if Ascii.eqb c "\" then
        match r with
        | e :: r' => if is_alnum e then None else cons (Lit e) <$> compile r'
        | [] => None
        end
      else if is_meta c then None
      else cons (Lit c) <$> compile r
  end.

Definition newline : ascii := "010".

Definition atom_matches (caseless : bool) (a : atom) (x : ascii) : bool :=
  match a with
  | Lit c =>
      if caseless then Ascii.eqb (to_lower c) (to_lower x) else Ascii.eqb c x
  | Dot => negb (Ascii.eqb x newline)
  end.

(** The atoms match a prefix of the subject. *)
Fixpoint match_here (caseless : bool) (p : list atom) (s : list ascii) : bool :=
  match p, s with
  | [], _ => true
  | a :: p', x :: s' => atom_matches caseless a x && match_here caseless p' s'
  | _ :: _, [] => false
  end.

(** The atoms match somewhere in the subject (an unanchored search). *)
Fixpoint search (caseless : bool) (p : list atom) (s : list ascii) : bool :=
  match_here caseless p s ||
  match s with
  | [] => false
  | _ :: s' => search caseless p s'
  end.

(** [$options]: the endpoints only ever send "i" (or nothing). *)
Definition caseless_of (options : string) : option bool :=
  if String.eqb options "i" then Some true
  else if String.eqb options "" then Some false
  else None.

End Regex.

(* ===================================================================== *)
(** ** The document store: one collection, "charactermodel" *)
(* ===================================================================== *)

Module Mongo.
Import Text Bson Schemas.

Record Document := { _id : ObjectId; body : CharacterModel }.

(** The documents of the collection, in the order the store enumerates
    them.  The store keeps [_id] unique. *)
Abbreviation Collection := (list Document).

Definition ids (coll : Collection) : list ObjectId := _id <$> coll.

Definition unique_ids (coll : Collection) : Prop := NoDup (ids coll).

(** [collection.count_documents({})]. *)
Definition count_documents (coll : Collection) : Z := Z.of_nat (length coll).

(** [collection.find({"_id": {"$in": oids}})]. *)
Definition find_id_in (oids : list ObjectId) (coll : Collection) : Collection :=
  filter (λ d, _id d ∈ oids) coll.

Definition inc_downloads (inc : Z) (d : Document) : Document :=
  let b := body d in
  {| _id := _id d;
     body := {| name := name b; description := description b; price := price b;
                thumbnail_url := thumbnail_url b; preview_url := preview_url b;
                tags := tags b; formats := formats b; polycount := polycount b;
                rigged := rigged b; animated := animated b; rating := rating b;
                downloads := (downloads b + inc)%Z |} |}.

(** The write of [update_one({"_id": oid}, {"$inc": {"downloads": inc}})]:
    the first document with that [_id], if any, gets its counter raised. *)
Fixpoint apply_inc (oid : ObjectId) (inc : Z) (coll : Collection) : Collection :=
  match coll with
  | [] => []
  | d :: rest =>
      if decide (_id d = oid) then inc_downloads inc d :: rest
      else d :: apply_inc oid inc rest
  end.

(** [update_one] may raise (the driver cannot encode the value, the store
    rejects the write, the connection drops, ...).  [fails oid inc] says
    whether the call for that document and amount raises; [None] is the
    exception, and nothing is written then. *)
Definition update_one (fails : ObjectId -> Z -> bool)
    (oid : ObjectId) (inc : Z) (coll : Collection) : option Collection :=
  if fails oid inc then None else Some (apply_inc oid inc coll).

(** *** Query filters, as [list_models] builds them *)

Inductive field := Name | Description.

(** [{field: {"$regex": pattern, "$options": options}}] *)
Record regex_clause := {
  rc_field : field;
  rc_regex : string;
  rc_options : string
}.

Inductive clause :=
  | TagsIn (values : list string)        (* "tags": {"$in": values} *)
  | OrRegex (alts : list regex_clause).  (* "$or": [ ... ] *)

(** A filter document: every entry has to hold. *)
Abbreviation Filter := (list clause).

Record compiled_regex := {
  cr_field : field;
  cr_caseless : bool;
  cr_atoms : list Regex.atom
}.

Inductive compiled_clause :=
  | CTagsIn (values : list string)
  | COrRegex (alts : list compiled_regex).

Definition compile_regex (c : regex_clause) : option compiled_regex :=
  caseless ← Regex.caseless_of (rc_options c);
  atoms ← Regex.compile (chars (rc_regex c));
  Some {| cr_field := rc_field c; cr_caseless := caseless; cr_atoms := atoms |}.

Definition compile_clause (c : clause) : option compiled_clause :=
  match c with
  | TagsIn vs => Some (CTagsIn vs)
  | OrRegex alts => COrRegex <$> mapM compile_regex alts
  end.

(** The store parses the whole filter before it looks at any document. *)
Definition compile_filter (f : Filter) : option (list compiled_clause) :=
  mapM compile_clause f.

Definition field_value (f : field) (d : Document) : option string :=
  match f with
  | Name => Some (name (body d))
  | Description => description (body d)
  end.

(** A regular expression never matches a field that is null or missing. *)
Definition regex_holds (r : compiled_regex) (d : Document) : bool :=
  match field_value (cr_field r) d with
  | Some s => Regex.search (cr_caseless r) (cr_atoms r) (chars s)
  | None => false
  end.

Definition clause_holds (c : compiled_clause) (d : Document) : bool :=
  match c with
  | CTagsIn vs => existsb (λ t, bool_decide (t ∈ vs)) (tags (body d))
  | COrRegex alts => existsb (λ r, regex_holds r d) alts
  end.

Definition matches (f : list compiled_clause) (d : Document) : bool :=
  forallb (λ c, clause_holds c d) f.

(** [collection.find(filter)]; [None] when the filter uses a pattern
    outside the modelled fragment. *)
Definition find (f : Filter) (coll : Collection) : option Collection :=
  cf ← compile_filter f;
  Some (filter (λ d, matches cf d) coll).

End Mongo.

(* ===================================================================== *)
(** ** database.py *)
(* ===================================================================== *)

Module Database.
Import Bson Schemas Mongo.

(** Modelled from the spec: [create_document] of [database.py], which is
    not among the sources.  The spec gives the store an insert operation
    and has the store assign the identifier of a new item; [new_id] is the
    identifier the driver picks for the next document of a collection. *)
Definition create_document (new_id : Collection -> ObjectId)
    (coll : Collection) (data : CharacterModel) : Collection :=
  coll ++ [ {| _id := new_id coll; body := data |} ].

(** Modelled from the spec: [get_documents] of [database.py], which is not
    among the sources.  The spec has the listing produce "an ordered
    sequence of up to [limit]" matching records, [limit] a positive
    integer, in the store's own order. *)
Definition get_documents (coll : Collection) (f : Filter) (limit : Z)
  : option Collection :=
  take (Z.to_nat limit) <$> find f coll.

End Database.

(* ===================================================================== *)
(** ** main.py *)
(* ===================================================================== *)

Module Main.
Import Text Bson Schemas Mongo Database.

(** What an endpoint hands back to the framework: a JSON value, an
    [HTTPException], or an exception nobody catches (which the framework
    turns into a bare 500). *)
Inductive Response (A : Type) :=
  | Ok (a : A)
  | HTTPException (status_code : Z) (detail : string)
  | Raised (exc : string).
Arguments Ok {A} a.
Arguments HTTPException {A} status_code detail.
Arguments Raised {A} exc.

(** The module-level [db]: [None] when no database is configured. *)
Abbreviation Db := (option Collection).

(** *** POST /seed *)

Record SeedReply := {
  seeded : bool;
  seed_message : option string;
  seed_count : option Z
}.

#[warnings="-inexact-float"]
Definition neon_runner : CharacterModel :=
  {| name := "Neon Runner";
     description := Some "Stylized cyberpunk runner with glowing accents";
     price := 29.0;
     thumbnail_url := Some "https://images.unsplash.com/photo-1542751371-adc38448a05e?w=800&q=80&auto=format&fit=crop";
     preview_url := Some "https://youtu.be/dQw4w9WgXcQ";
     tags := ["cyberpunk"; "stylized"; "game-ready"];
     formats := ["FBX"; "GLB"];
     polycount := Some "28k tris";
     rigged := true;
     animated := true;
     rating := Some 4.6%float;
     downloads := 0 |}.

#[warnings="-inexact-float"]
Definition forest_guardian : CharacterModel :=
  {| name := "Forest Guardian";
     description := Some "Fantasy archer with cloak and light armor";
     price := 39.0;
     thumbnail_url := Some "https://images.unsplash.com/photo-1605721911519-3dfeb3be25e7?w=800&q=80&auto=format&fit=crop";
     preview_url := None;
     tags := ["fantasy"; "archer"; "PBR"];
     formats := ["FBX"; "OBJ"];
     polycount := Some "32k tris";
     rigged := true;
     animated := false;
     rating := Some 4.8%float;
     downloads := 0 |}.

#[warnings="-inexact-float"]
Definition mech_scout : CharacterModel :=
  {| name := "Mech Scout";
     description := Some "Compact sci-fi mech with emissive details";
     price := 24.0;
     thumbnail_url := Some "https://images.unsplash.com/photo-1517694712202-14dd9538aa97?w=800&q=80&auto=format&fit=crop";
     preview_url := None;
     tags := ["sci-fi"; "mech"; "low-poly"];
     formats := ["GLB"];
     polycount := Some "18k tris";
     rigged := false;
     animated := false;
     rating := Some 4.2%float;
     downloads := 0 |}.

Definition demo_items : list CharacterModel :=
  [neon_runner; forest_guardian; mech_scout].

Definition seed_demo_models (new_id : Collection -> ObjectId) (db : Db)
  : Response SeedReply * Db :=
  match db with
  | None => (HTTPException 500 "Database not configured", db)
  | Some coll =>
      let existing := count_documents coll in
      if (0 <? existing)%Z then
        (Ok {| seeded := false;
               seed_message := Some "Collection already has documents";
               seed_count := None |}, db)
      else
        let coll' := foldl (create_document new_id) coll demo_items in
        (Ok {| seeded := true;
               seed_message := None;
               seed_count := Some (Z.of_nat (length demo_items)) |},
         Some coll')
  end.

(** *** GET /models *)

(** A document as the listing returns it: [_id] popped and exposed as the
    string [id]. *)
Record ModelJson := { id : string; fields : CharacterModel }.

Definition convert (doc : Document) : ModelJson :=
  {| id := str (_id doc); fields := body doc |}.

(** The filter [list_models] builds out of [tag] and [q]. *)
Definition build_filter (tag q : option string) : Filter :=
  (match tag with
   | Some (String _ _ as t) => [TagsIn [t]]
   | _ => []
   end) ++
  (match q with
   | Some (String _ _ as q') =>
       [OrRegex [ {| rc_field := Name; rc_regex := q'; rc_options := "i" |};
                  {| rc_field := Description; rc_regex := q'; rc_options := "i" |} ]]
   | _ => []
   end).

(** The outer [option] is [None] only when [q] is a pattern outside the
    modelled fragment of the store's pattern language. *)
Definition list_models (db : Db) (tag q : option string) (limit : Z)
  : option (Response (list ModelJson)) * Db :=
  match db with
  | None => (Some (Ok []), db)
  | Some coll =>
      let filt := build_filter tag q in
      match get_documents coll filt limit with
      | Some docs => (Some (Ok (convert <$> docs)), db)
      | None => (None, db)
      end
  end.

(** *** POST /checkout *)

Record CheckoutItem := { item_id : string; qty : Z }.

Record CheckoutRequest := { items : list CheckoutItem }.

Record LineItem := {
  line_id : string;
  line_name : string;
  line_qty : Z;
  line_price : float;
  line_total : float;
  download_links : list (option string)
}.

Record Receipt := {
  order_id : string;
  receipt_items : list LineItem;
  subtotal : float;
  message : string
}.

(** [{i.id: max(1, i.qty) for i in payload.items}]: a later entry with the
    same key replaces the earlier one. *)
Definition qty_map (its : list CheckoutItem) : gmap string Z :=
  foldl (λ m i, <[item_id i := Z.max 1 (qty i)]> m) ∅ its.

(** [qty_map.get(str(doc["_id"]), 1)] *)
Definition qty_for (m : gmap string Z) (doc : Document) : Z :=
  default 1%Z (m !! str (_id doc)).

(** [[ObjectId(i) for i in ids if ObjectId.is_valid(i)]] *)
Definition lookup_ids (ids : list string) : list ObjectId :=
  of_str <$> filter (λ i, is_valid i) ids.

(** One turn of the counter loop: the exception of [update_one], if any,
    is caught and dropped. *)
Definition bump (fails : ObjectId -> Z -> bool) (m : gmap string Z)
    (coll : Collection) (doc : Document) : Collection :=
  let inc := qty_for m doc in
  match update_one fails (_id doc) inc coll with
  | Some coll' => coll'
  | None => coll
  end.

Definition make_line (doc : Document) (q : Z) (p total : float) : LineItem :=
  {| line_id := str (_id doc);
     line_name := name (body doc);
     line_qty := q;
     line_price := p;
     line_total := total;
     download_links :=
       [ Py.or_ (preview_url (body doc)) (thumbnail_url (body doc)) ] |}.

(** One turn of the receipt loop on [(line_items, subtotal)]; [None] once
    the product has raised. *)
Definition add_line (m : gmap string Z)
    (acc : option (list LineItem * float)) (doc : Document)
  : option (list LineItem * float) :=
  match acc with
  | None => None
  | Some (line_items, sub) =>
      let q := qty_for m doc in
      let p := price (body doc) in
      match Py.float_mul_int p q with
      | None => None
      | Some total =>
          Some (line_items ++ [make_line doc q p total], (sub + total)%float)
      end
  end.

Definition build_receipt (m : gmap string Z) (found : Collection)
  : option (list LineItem * float) :=
  foldl (add_line m) (Some ([], 0%float)) found.

(** [fails] decides which counter updates raise; [uuid] is the text of the
    fresh [uuid4()]. *)
Definition checkout (fails : ObjectId -> Z -> bool) (uuid : string)
    (db : Db) (payload : CheckoutRequest) : Response Receipt * Db :=
  match db with
  | None => (HTTPException 500 "Database not configured", db)
  | Some coll =>
      match items payload with
      | [] => (HTTPException 400 "No items in checkout", db)
      | _ :: _ =>
          let ids := item_id <$> items payload in
          let m := qty_map (items payload) in
          let found := find_id_in (lookup_ids ids) coll in
          match found with
          | [] => (HTTPException 404 "Models not found", db)
          | _ :: _ =>
              let coll' := foldl (bump fails m) coll found in
              match build_receipt m found with
              | None => (Raised "OverflowError", Some coll')
              | Some (line_items, sub) =>
                  (Ok {| order_id := uuid;
                         receipt_items := line_items;
                         subtotal := sub;
                         message := "Order confirmed. Download links are ready." |},
                   Some coll')
              end
          end
      end
  end.

(** *** GET /test *)

(** What a call on the database handle does: it returns, or it raises an
    exception with a message. *)
Inductive Outcome (A : Type) :=
  | Returns (a : A)
  | Raises (msg : string).
Arguments Returns {A} a.
Arguments Raises {A} msg.

(** The module-level [db] as the diagnostic sees it: its [name] and its
    [list_collection_names()]. *)
Record Database := {
  db_name : Outcome string;
  list_collection_names : Outcome (list string)
}.

Record TestResponse := {
  backend : string;
  database : string;
  database_url : option string;
  database_name : option string;
  connection_status : string;
  collections : list string
}.

Definition set_database (v : string) (r : TestResponse) : TestResponse :=
  {| backend := backend r; database := v; database_url := database_url r;
     database_name := database_name r;
     connection_status := connection_status r; collections := collections r |}.

Definition set_database_url (v : option string) (r : TestResponse) : TestResponse :=
  {| backend := backend r; database := database r; database_url := v;
     database_name := database_name r;
     connection_status := connection_status r; collections := collections r |}.

Definition set_database_name (v : option string) (r : TestResponse) : TestResponse :=
  {| backend := backend r; database := database r; database_url := database_url r;
     database_name := v;
     connection_status := connection_status r; collections := collections r |}.

Definition set_connection_status (v : string) (r : TestResponse) : TestResponse :=
  {| backend := backend r; database := database r; database_url := database_url r;
     database_name := database_name r;
     connection_status := v; collections := collections r |}.

Definition set_collections (v : list string) (r : TestResponse) : TestResponse :=
  {| backend := backend r; database := database r; database_url := database_url r;
     database_name := database_name r;
     connection_status := connection_status r; collections := v |}.

(** [s[:n]]: the first [n] characters of a text.  The text is held as its
    UTF-8 bytes, where a byte that is not a continuation byte starts a
    character and the continuation bytes after it belong to it. *)
Fixpoint take_chars (n : nat) (s : string) : string :=
  match s with
  | EmptyString => EmptyString
  | String c r =>
      if Text.is_continuation c then String c (take_chars n r)
      else
        match n with
        | O => EmptyString
        | S n' => String c (take_chars n' r)
        end
  end.

(** [str(e)[:50]] *)
Definition first_50 (msg : string) : string := take_chars 50 msg.

(** [db] is the handle, [env_url] and [env_name] are
    [os.getenv("DATABASE_URL")] and [os.getenv("DATABASE_NAME")]. *)
Definition test_database (db : option Database) (env_url env_name : option string)
  : TestResponse :=
  let response :=
    {| backend := "✅ Running";
       database := "❌ Not Available";
       database_url := None;
       database_name := None;
       connection_status := "Not Connected";
       collections := [] |} in
  let response :=
    match db with
    | Some h =>
        let response := set_database "✅ Available" response in
        let response := set_database_url (Some "✅ Configured") response in
        match db_name h with
        | Raises e =>
            (* the outer [except Exception] *)
            set_database ("❌ Error: " +:+ first_50 e) response
        | Returns n =>
            let response := set_database_name (Some n) response in
            let response := set_connection_status "Connected" response in
            match list_collection_names h with
            | Returns names =>
                let response := set_collections (take 10 names) response in
                set_database "✅ Connected & Working" response
            | Raises e =>
                set_database ("⚠️  Connected but Error: " +:+ first_50 e) response
            end
        end
    | None => set_database "⚠️  Available but not initialized" response
    end in
  let response :=
    set_database_url
      (Some (if Py.truthy env_url then "✅ Set" else "❌ Not Set")) response in
  let response :=
    set_database_name
      (Some (if Py.truthy env_name then "✅ Set" else "❌ Not Set")) response in
  response.

End Main.

(* ===================================================================== *)
(** * Properties *)
(* ===================================================================== *)

Import Text Bson Schemas Mongo Database Main.

(** ** Identifiers *)

(** An identifier of a request resolves to a stored document when it is a
    valid ObjectId text and spells that document's [_id]. *)
Definition resolves (s : string) (d : Document) : Prop :=
  is_valid s = true /\ of_str s = _id d.

Lemma to_lower_lower_hex c : is_lower_hex c = true -> to_lower c = c.
Proof.
  unfold is_lower_hex, to_lower, is_upper. cbv zeta.
  intros H. destruct ((65 <=? N_of_ascii c)%N && (N_of_ascii c <=? 90)%N) eqn:E;
    [|reflexivity].
  apply andb_true_iff in E as [E1 E2].
  apply N.leb_le in E1, E2.
  apply orb_true_iff in H as [H|H]; apply andb_true_iff in H as [H1 H2];
    apply N.leb_le in H1, H2; lia.
Qed.

Lemma lower_lower_hex s :
  forallb is_lower_hex (chars s) = true -> lower s = s.
Proof.
  induction s as [|c s IH]; simpl; [reflexivity|].
  intros H. apply andb_true_iff in H as [Hc Hs].
  rewrite (to_lower_lower_hex c Hc), (IH Hs). reflexivity.
Qed.

Lemma lower_hex_char c :
  is_lower_hex c = true ->
  is_space c = false /\ is_hex c = true /\ to_lower c = c.
Proof.
  destruct c as [[] [] [] [] [] [] [] []]; vm_compute; intros H;
    try discriminate H; repeat split.
Qed.

Lemma to_lower_twice c : to_lower (to_lower c) = to_lower c.
Proof. by destruct c as [[] [] [] [] [] [] [] []]. Qed.

(** [fromhex] reads a text of lower-case digits as itself. *)
Lemma fromhex_lower_hex l :
  (forallb is_lower_hex l = true -> forall r, fromhex l = Some r -> r = l) /\
  (forall c, forallb is_lower_hex (c :: l) = true ->
             forall r, fromhex (c :: l) = Some r -> r = c :: l).
Proof.
  induction l as [|a l [IH1 IH2]].
  - split; [by intros _ r [= <-]|].
    intros c Hc r. cbn [forallb] in Hc. apply andb_true_iff in Hc as [Hc _].
    destruct (lower_hex_char c Hc) as (Hs & Hh & _).
    cbn [fromhex]. by rewrite Hs, Hh.
  - split; [apply IH2|].
    intros c Hc r. cbn [forallb] in Hc.
    apply andb_true_iff in Hc as [Hc Hal].
    apply andb_true_iff in Hal as [Ha Hl].
    destruct (lower_hex_char c Hc) as (Hs & Hh & Hlc).
    destruct (lower_hex_char a Ha) as (_ & Hha & Hla).
    cbn [fromhex]. rewrite Hs, Hh, Hha, Hlc, Hla.
    destruct (fromhex l) as [t|] eqn:E; [|done].
    intros [= <-]. by rewrite (IH1 Hl t).
Qed.

(** What [fromhex] gives back is in lower case. *)
Lemma fromhex_lower l :
  (forall r, fromhex l = Some r -> to_lower <$> r = r) /\
  (forall c r, fromhex (c :: l) = Some r -> to_lower <$> r = r).
Proof.
  induction l as [|a l [IH1 IH2]].
  - split; [by intros r [= <-]|].
    intros c r. cbn [fromhex].
    destruct (is_space c); [by intros [= <-]|]. by destruct (is_hex c).
  - split; [apply IH2|].
    intros c r. cbn [fromhex]. fold (fromhex (a :: l)).
    destruct (is_space c); [apply IH2|].
    destruct (is_hex c); [|done]. destruct (is_hex a); [|done].
    destruct (fromhex l) as [t|] eqn:E; [|done].
    intros [= <-]. rewrite !fmap_cons, !to_lower_twice. by rewrite (IH1 t).
Qed.

Lemma lower_string_of_list l :
  lower (string_of_list_ascii l) = string_of_list_ascii (to_lower <$> l).
Proof. induction l as [|c l IH]; [done|]. simpl. by rewrite IH. Qed.

(** [str] of an ObjectId made from a text is in lower case. *)
Lemma str_of_str_lower s : lower (str (of_str s)) = str (of_str s).
Proof.
  unfold str, of_str. cbn [hexlify].
  destruct (fromhex (chars s)) as [r|] eqn:E; [|done]. cbn [default].
  rewrite lower_string_of_list. f_equal. by apply (fromhex_lower (chars s)).
Qed.

(** The text [GET /models] shows for an identifier (24 lower-case
    hexadecimal digits) is canonical. *)
Lemma lower_hex_canonical s :
  is_valid s = true -> forallb is_lower_hex (chars s) = true -> canonical s.
Proof.
  intros Hv Hl. split; [exact Hv|].
  unfold str, of_str. cbn [hexlify].
  unfold is_valid in Hv. apply andb_true_iff in Hv as [_ Hv].
  destruct (fromhex (chars s)) as [r|] eqn:E; [|done]. cbn [default].
  rewrite (proj1 (fromhex_lower_hex (chars s)) Hl r E).
  apply string_of_list_ascii_of_string.
Qed.

(** ** The quantity map *)

(** The last entry of a request that carries a given identifier. *)
Definition last_entry (k : string) (its : list CheckoutItem) : option CheckoutItem :=
  last (filter (λ i, item_id i = k) its).

Lemma qty_map_foldl (its : list CheckoutItem) (m : gmap string Z) (k : string) :
  foldl (λ m i, <[item_id i := Z.max 1 (qty i)]> m) m its !! k =
  match last_entry k its with
  | Some i => Some (Z.max 1 (qty i))
  | None => m !! k
  end.
Proof.
  unfold last_entry. revert m.
  induction its as [|i its IH]; intros m; [reflexivity|].
  cbn [foldl]. rewrite IH, filter_cons.
  destruct (decide (item_id i = k)) as [Hk|Hne].
  - rewrite last_cons.
    destruct (last (filter _ its)); [reflexivity|].
    rewrite Hk. apply lookup_insert_eq.
  - destruct (last (filter _ its)); [reflexivity|].
    by apply lookup_insert_ne.
Qed.

(** Last write wins: the map holds, for each identifier of the request, the
    normalised quantity of its last entry, and nothing else. *)
Lemma qty_map_lookup (its : list CheckoutItem) (k : string) :
  qty_map its !! k = (λ i, Z.max 1 (qty i)) <$> last_entry k its.
Proof.
  unfold qty_map. rewrite qty_map_foldl.
  destruct (last_entry k its); [reflexivity|]. apply lookup_empty.
Qed.

Lemma last_entry_elem k its i :
  last_entry k its = Some i -> i ∈ its /\ item_id i = k.
Proof.
  unfold last_entry. intros H. apply last_Some_elem_of in H.
  apply list_elem_of_filter in H. tauto.
Qed.

Lemma qty_for_ge_1 its d : (1 <= qty_for (qty_map its) d)%Z.
Proof.
  unfold qty_for. rewrite qty_map_lookup.
  destruct (last_entry _ its); simpl; lia.
Qed.

(** ** The counter loop *)

Section counters.
Context (fails : ObjectId -> Z -> bool) (m : gmap string Z).

(** What the loop leaves of a document it visits: the counter raised by
    the document's quantity, unless the update raised. *)
Definition counted (d : Document) : Document :=
  if fails (_id d) (qty_for m d) then d else inc_downloads (qty_for m d) d.

Lemma counted_id d : _id (counted d) = _id d.
Proof. unfold counted. by destruct (fails _ _). Qed.

Lemma qty_for_same_id d d' : _id d = _id d' -> qty_for m d = qty_for m d'.
Proof. unfold qty_for. by intros ->. Qed.

Lemma ids_fmap_keep (g : Document -> Document) coll :
  (forall d, _id (g d) = _id d) -> ids (g <$> coll) = ids coll.
Proof.
  intros Hg. unfold ids. rewrite <- list_fmap_compose.
  apply list_fmap_ext. intros _ d _. apply Hg.
Qed.

Lemma apply_inc_absent oid inc coll :
  oid ∉ ids coll -> apply_inc oid inc coll = coll.
Proof.
  induction coll as [|d coll IH]; simpl; [done|].
  intros Hn. apply not_elem_of_cons in Hn as [Hd Hr].
  destruct (decide (_id d = oid)); [congruence|].
  by rewrite IH.
Qed.

Lemma fmap_absent (g : Document -> Document) oid coll :
  oid ∉ ids coll ->
  (λ d, if decide (_id d = oid) then g d else d) <$> coll = coll.
Proof.
  induction coll as [|d coll IH]; [done|].
  change (ids (d :: coll)) with (_id d :: ids coll).
  intros Hn. apply not_elem_of_cons in Hn as [Hd Hr].
  rewrite fmap_cons.
  destruct (decide (_id d = oid)); [congruence|].
  by rewrite IH.
Qed.

Lemma apply_inc_map oid inc coll :
  unique_ids coll ->
  apply_inc oid inc coll =
  (λ d, if decide (_id d = oid) then inc_downloads inc d else d) <$> coll.
Proof.
  unfold unique_ids.
  induction coll as [|d coll IH]; [done|].
  change (ids (d :: coll)) with (_id d :: ids coll).
  intros Hnd. apply NoDup_cons in Hnd as [Hd Hr].
  rewrite fmap_cons. cbn [apply_inc].
  destruct (decide (_id d = oid)) as [<-|Hne].
  - by rewrite fmap_absent.
  - by rewrite IH.
Qed.

Lemma bump_map coll doc :
  unique_ids coll ->
  bump fails m coll doc =
  (λ d, if decide (_id d = _id doc) then counted d else d) <$> coll.
Proof.
  intros Hu. unfold bump, update_one, counted.
  destruct (fails (_id doc) (qty_for m doc)) eqn:Hf.
  - symmetry. etrans; [|apply list_fmap_id].
    apply list_fmap_ext. intros _ d _.
    destruct (decide (_id d = _id doc)) as [e|]; [|done].
    by rewrite e, (qty_for_same_id _ _ e), Hf.
  - rewrite apply_inc_map by done.
    apply list_fmap_ext. intros _ d _.
    destruct (decide (_id d = _id doc)) as [e|]; [|done].
    by rewrite e, (qty_for_same_id _ _ e), Hf.
Qed.

(** The loop visits documents with pairwise different identifiers, so each
    stored document is touched at most once, whatever the order. *)
Lemma counter_loop coll found :
  unique_ids coll -> NoDup (ids found) ->
  foldl (bump fails m) coll found =
  (λ d, if decide (_id d ∈ ids found) then counted d else d) <$> coll.
Proof.
  revert coll. induction found as [|x found IH]; intros coll Hu Hnd.
  - simpl. symmetry. etrans; [|apply list_fmap_id].
    apply list_fmap_ext. intros _ d _. reflexivity.
  - cbn [foldl]. change (ids (x :: found)) with (_id x :: ids found) in *.
    apply NoDup_cons in Hnd as [Hx Hnd].
    rewrite bump_map by done. rewrite IH; [|unfold unique_ids|done].
    + rewrite <- list_fmap_compose. apply list_fmap_ext. intros _ d _. simpl.
      destruct (decide (_id d = _id x)) as [e|ne].
      * rewrite counted_id.
        destruct (decide (_id d ∈ ids found)) as [Hin|_]; [by rewrite e in Hin|].
        destruct (decide (_id d ∈ _id x :: ids found)) as [|Hout]; [done|].
        exfalso. apply Hout. rewrite e. left.
      * destruct (decide (_id d ∈ ids found)) as [Hin|Hnin];
          destruct (decide (_id d ∈ _id x :: ids found)) as [Hin'|Hnin'];
          try done.
        -- exfalso. apply Hnin'. by right.
        -- apply elem_of_cons in Hin' as [?|?]; done.
    + rewrite ids_fmap_keep; [done|].
      intros d. case_decide; [apply counted_id|done].
Qed.

Lemma find_id_in_unique oids coll :
  unique_ids coll -> NoDup (ids (find_id_in oids coll)).
Proof.
  unfold unique_ids, find_id_in, ids.
  induction coll as [|d coll IH]; [done|].
  rewrite filter_cons. rewrite fmap_cons. intros Hnd.
  apply NoDup_cons in Hnd as [Hd Hr].
  destruct (decide (_id d ∈ oids)); [|by apply IH].
  rewrite fmap_cons. apply NoDup_cons. split; [|by apply IH].
  intros Hin. apply Hd.
  apply list_elem_of_fmap in Hin as (d' & -> & Hd').
  apply list_elem_of_filter in Hd' as [_ Hd'].
  by apply list_elem_of_fmap_2.
Qed.

Lemma find_id_in_ids oids coll d :
  d ∈ coll -> (_id d ∈ ids (find_id_in oids coll) <-> _id d ∈ oids).
Proof.
  intros Hd. unfold ids, find_id_in. split.
  - intros Hin. apply list_elem_of_fmap in Hin as (d' & -> & Hd').
    by apply list_elem_of_filter in Hd' as [? _].
  - intros Hin. apply list_elem_of_fmap_2.
    by apply list_elem_of_filter.
Qed.

(** The store after the counter loop of [checkout]. *)
Lemma counter_loop_found oids coll :
  unique_ids coll ->
  foldl (bump fails m) coll (find_id_in oids coll) =
  (λ d, if decide (_id d ∈ oids) then counted d else d) <$> coll.
Proof.
  intros Hu. rewrite counter_loop; [|done|by apply find_id_in_unique].
  apply list_fmap_ext. intros i d Hi.
  assert (d ∈ coll) as Hd by (by eapply list_elem_of_lookup_2).
  pose proof (find_id_in_ids oids coll d Hd) as Hiff.
  destruct (decide (_id d ∈ ids (find_id_in oids coll)));
    destruct (decide (_id d ∈ oids)); tauto.
Qed.

End counters.

(** ** The receipt loop *)

(** [float(n)] when it does not raise. *)
Definition to_float (n : Z) : float :=
  SF2Prim (SpecFloat.binary_normalize prec emax n 0 false).

(** The sum of a list of floats, added up from [0.0] in list order. *)
Definition float_sum (xs : list float) : float := foldl PrimFloat.add 0%float xs.

(** The receipt line of a found document. *)
Definition line_of (m : gmap string Z) (d : Document) (l : LineItem) : Prop :=
  is_Some (Py.float_of_int (qty_for m d)) /\
  l = make_line d (qty_for m d) (price (body d))
        (price (body d) * to_float (qty_for m d))%float.

Lemma float_of_int_Some n y : Py.float_of_int n = Some y -> y = to_float n.
Proof.
  unfold Py.float_of_int, to_float.
  destruct (SpecFloat.binary_normalize _ _ _ _ _); intros H; by inversion H.
Qed.

Lemma float_mul_int_Some x n t :
  Py.float_mul_int x n = Some t ->
  is_Some (Py.float_of_int n) /\ t = (x * to_float n)%float.
Proof.
  unfold Py.float_mul_int. destruct (Py.float_of_int n) as [y|] eqn:E; [|done].
  intros [= <-]. split; [by eexists|].
  by rewrite (float_of_int_Some _ _ E).
Qed.

Lemma add_line_raised m found : foldl (add_line m) None found = None.
Proof. induction found as [|d found IH]; [done|]. exact IH. Qed.

Lemma receipt_loop m found ls0 s0 ls s :
  foldl (add_line m) (Some (ls0, s0)) found = Some (ls, s) ->
  exists new,
    ls = ls0 ++ new /\ Forall2 (line_of m) found new /\
    s = foldl (λ a l, (a + line_total l)%float) s0 new.
Proof.
  revert ls0 s0. induction found as [|d found IH]; intros ls0 s0.
  - intros [= <- <-]. exists []. by rewrite app_nil_r.
  - cbn [foldl]. unfold add_line at 2.
    destruct (Py.float_mul_int _ _) as [t|] eqn:E.
    + intros H. apply IH in H as (new & -> & HF & ->).
      apply float_mul_int_Some in E as [Hs ->].
      eexists (_ :: new). rewrite <- app_assoc. split; [done|].
      split; [|done]. constructor; [|done]. by split.
    + by rewrite add_line_raised.
Qed.

Lemma receipt_loop_total m found ls0 s0 :
  Forall (λ d, is_Some (Py.float_of_int (qty_for m d))) found ->
  is_Some (foldl (add_line m) (Some (ls0, s0)) found).
Proof.
  intros HF. revert ls0 s0.
  induction HF as [|d found [y Hy] _ IH]; intros ls0 s0; [by eexists|].
  cbn [foldl]. unfold add_line at 2, Py.float_mul_int. rewrite Hy. apply IH.
Qed.

(** What [build_receipt] returns: one line per found document, in order,
    and the running total of the line totals. *)
Lemma build_receipt_Some m found ls s :
  build_receipt m found = Some (ls, s) ->
  Forall2 (line_of m) found ls /\ s = float_sum (line_total <$> ls).
Proof.
  intros H. apply receipt_loop in H as (new & -> & HF & ->).
  split; [done|]. unfold float_sum. simpl.
  generalize 0%float. clear HF.
  induction new as [|l new IH]; intros a; [done|]. apply IH.
Qed.

(** ** The three outcomes of [checkout] on a live store *)

(** The [found] of [checkout]: the stored documents the request resolves to. *)
Definition found_of (payload : CheckoutRequest) (coll : Collection) : Collection :=
  find_id_in (lookup_ids (item_id <$> items payload)) coll.

Section checkout_cases.
Context (fails : ObjectId -> Z -> bool) (uuid : string).
Context (coll : Collection) (payload : CheckoutRequest).

Lemma checkout_not_found :
  items payload <> [] -> found_of payload coll = [] ->
  checkout fails uuid (Some coll) payload =
  (HTTPException 404 "Models not found", Some coll).
Proof.
  unfold checkout, found_of. intros Hne ->.
  by destruct (items payload).
Qed.

Lemma checkout_found :
  items payload <> [] -> found_of payload coll <> [] ->
  checkout fails uuid (Some coll) payload =
  (match build_receipt (qty_map (items payload)) (found_of payload coll) with
   | None => Raised "OverflowError"
   | Some (line_items, sub) =>
       Ok {| order_id := uuid; receipt_items := line_items; subtotal := sub;
             message := "Order confirmed. Download links are ready." |}
   end,
   Some (foldl (bump fails (qty_map (items payload))) coll (found_of payload coll))).
Proof.
  unfold checkout, found_of. intros Hne Hf.
  destruct (items payload) as [|i its]; [done|].
  destruct (find_id_in _ coll) as [|d ds]; [done|].
  by destruct (build_receipt _ _) as [[??]|].
Qed.

Lemma checkout_ok_inv r db' :
  checkout fails uuid (Some coll) payload = (Ok r, db') ->
  items payload <> [] /\ found_of payload coll <> [] /\
  build_receipt (qty_map (items payload)) (found_of payload coll)
    = Some (receipt_items r, subtotal r) /\
  db' = Some (foldl (bump fails (qty_map (items payload))) coll (found_of payload coll)).
Proof.
  intros H.
  assert (items payload <> []) as Ei.
  { intros Ei. unfold checkout in H. by rewrite Ei in H. }
  destruct (found_of payload coll) as [|d ds] eqn:Ef.
  { rewrite checkout_not_found in H; done. }
  rewrite checkout_found in H; [|done|by rewrite Ef].
  rewrite Ef in H.
  destruct (build_receipt _ _) as [[ls s]|]; [|done].
  by inversion H.
Qed.

End checkout_cases.

(** ** Resolution of the requested identifiers *)

Lemma lookup_ids_elem oid (ids : list string) :
  oid ∈ lookup_ids ids <-> exists s, s ∈ ids /\ is_valid s = true /\ of_str s = oid.
Proof.
  unfold lookup_ids. rewrite list_elem_of_fmap. split.
  - intros (s & -> & Hs). apply list_elem_of_filter in Hs as [Hv Hs].
    exists s. by rewrite <- Is_true_true.
  - intros (s & Hs & Hv & <-). exists s. split; [done|].
    apply list_elem_of_filter. by rewrite Is_true_true.
Qed.

(** The found documents are the stored documents some identifier of the
    request resolves to. *)
Lemma found_of_elem payload coll d :
  d ∈ found_of payload coll <->
  d ∈ coll /\ exists i, i ∈ items payload /\ resolves (item_id i) d.
Proof.
  unfold found_of, find_id_in, resolves.
  rewrite list_elem_of_filter, lookup_ids_elem. split.
  - intros [(s & Hs & Hv & He) Hd]. split; [done|].
    apply list_elem_of_fmap in Hs as (i & -> & Hi). by exists i.
  - intros [Hd (i & Hi & Hv & He)]. split; [|done].
    exists (item_id i). split; [|done]. by apply list_elem_of_fmap_2.
Qed.

Lemma found_of_nil payload coll :
  found_of payload coll = [] <->
  forall i d, i ∈ items payload -> d ∈ coll -> ~ resolves (item_id i) d.
Proof.
  split.
  - intros Hnil i d Hi Hd Hr.
    assert (d ∈ found_of payload coll) as Hin
      by (apply found_of_elem; eauto).
    rewrite Hnil in Hin. by apply elem_of_nil in Hin.
  - intros Hno. destruct (found_of payload coll) as [|d ds] eqn:E; [done|].
    assert (d ∈ found_of payload coll) as Hin by (rewrite E; left).
    apply found_of_elem in Hin as (Hd & i & Hi & Hr).
    by destruct (Hno i d).
Qed.

(** Identifiers that are not valid ObjectId texts never reach the store. *)
Lemma lookup_ids_drops_malformed (its : list CheckoutItem) :
  lookup_ids (item_id <$> its) =
  of_str <$> (item_id <$> filter (λ i, is_valid (item_id i)) its).
Proof.
  unfold lookup_ids. f_equal.
  induction its as [|i its IH]; [done|].
  rewrite fmap_cons, !filter_cons.
  destruct (decide (is_valid (item_id i))); rewrite ?fmap_cons; by f_equal.
Qed.

(** Every quantity the loops use is [1] or the normalised quantity of an
    entry of the request. *)
Lemma qty_for_cases its d :
  qty_for (qty_map its) d = 1%Z \/
  exists i, i ∈ its /\ qty_for (qty_map its) d = Z.max 1 (qty i).
Proof.
  unfold qty_for. rewrite qty_map_lookup.
  destruct (last_entry _ its) as [i|] eqn:E; [right|by left].
  apply last_entry_elem in E as [Hi _]. by exists i.
Qed.

Lemma float_of_int_1 : is_Some (Py.float_of_int 1).
Proof. exists 1%float. by vm_compute. Qed.

(** When every normalised quantity of the request converts to a float, the
    receipt loop runs to its end; a request that resolves to something then
    gets its receipt. *)
Lemma checkout_returns fails uuid coll payload :
  items payload <> [] -> found_of payload coll <> [] ->
  Forall (λ i, is_Some (Py.float_of_int (Z.max 1 (qty i)))) (items payload) ->
  exists r db', checkout fails uuid (Some coll) payload = (Ok r, db').
Proof.
  intros Hne Hf Hfit. rewrite checkout_found by done.
  destruct (build_receipt _ _) as [[ls s]|] eqn:E; [by eauto|].
  exfalso.
  assert (is_Some (build_receipt (qty_map (items payload)) (found_of payload coll)))
    as [x Hx]; [|congruence].
  apply receipt_loop_total. apply Forall_forall. intros d _.
  destruct (qty_for_cases (items payload) d) as [->|(i & Hi & ->)].
  - apply float_of_int_1.
  - by apply (proj1 (Forall_forall _ _) Hfit).
Qed.

(* ===================================================================== *)
(** * A seeded store, for the worked examples *)
(* ===================================================================== *)

Definition runner_id : string := "64b7f3a2c1d2e3f405162738".
Definition guardian_id : string := "64b7f3a2c1d2e3f405162739".
Definition scout_id : string := "64b7f3a2c1d2e3f40516273a".

(** The identifiers the driver hands out while the demo items are seeded. *)
Definition demo_new_id (coll : Collection) : ObjectId :=
  match length coll with
  | 0 => of_str runner_id
  | 1 => of_str guardian_id
  | _ => of_str scout_id
  end.

Definition runner_doc : Document :=
  {| _id := of_str runner_id; body := neon_runner |}.
Definition guardian_doc : Document :=
  {| _id := of_str guardian_id; body := forest_guardian |}.
Definition scout_doc : Document :=
  {| _id := of_str scout_id; body := mech_scout |}.

(** The collection after [POST /seed] on an empty store. *)
Definition demo_store : Collection := [runner_doc; guardian_doc; scout_doc].

Lemma demo_store_seeded :
  snd (seed_demo_models demo_new_id (Some [])) = Some demo_store.
Proof. reflexivity. Qed.

Definition no_failures : ObjectId -> Z -> bool := λ _ _, false.

Definition request (entries : list (string * Z)) : CheckoutRequest :=
  {| items := (λ e, {| item_id := e.1; qty := e.2 |}) <$> entries |}.

Lemma demo_store_unique : unique_ids demo_store.
Proof. apply (bool_decide_unpack _). by vm_compute. Qed.

(* ===================================================================== *)
(** * The checkout engine *)
(* ===================================================================== *)

(** C1.  For a request with at least one entry, one of whose identifiers
    resolves to a stored item: the subtotal of the returned receipt is the
    sum, over its lines in order, of the line's price times the line's
    quantity; every quantity on the receipt is at least 1 (whatever
    quantities were requested); and the lines are those of the resolved
    items, each priced at its item's stored price.  The receipt is returned
    whenever the normalised quantities of the request convert to floats. *)
Theorem checkout_subtotal_and_quantities fails uuid coll payload :
  items payload <> [] ->
  (exists i d, i ∈ items payload /\ d ∈ coll /\ resolves (item_id i) d) ->
  (forall r db',
     checkout fails uuid (Some coll) payload = (Ok r, db') ->
     subtotal r =
       float_sum ((λ l, (line_price l * to_float (line_qty l))%float)
                    <$> receipt_items r) /\
     Forall (λ l, (1 <= line_qty l)%Z) (receipt_items r) /\
     Forall2 (λ d l,
                line_id l = str (_id d) /\
                line_price l = price (body d) /\
                line_total l = (line_price l * to_float (line_qty l))%float)
       (found_of payload coll) (receipt_items r)) /\
  (Forall (λ i, is_Some (Py.float_of_int (Z.max 1 (qty i)))) (items payload) ->
   exists r db', checkout fails uuid (Some coll) payload = (Ok r, db')).
Proof.
  intros Hne (i & d & Hi & Hd & Hr). split.
  - intros r db' H. apply checkout_ok_inv in H as (_ & _ & Hb & _).
    apply build_receipt_Some in Hb as [HF ->].
    split; [|split].
    + f_equal.
      induction HF as [|x l xs ls [_ ->] _ IH]; [done|].
      rewrite !fmap_cons. by f_equal.
    + induction HF as [|x l xs ls [_ ->] _ IH]; constructor; [|done].
      apply qty_for_ge_1.
    + eapply Forall2_impl; [exact HF|]. by intros x l [_ ->].
  - intros Hfit. apply checkout_returns; [done| |done].
    intros Hnil. rewrite found_of_nil in Hnil. by apply (Hnil i d).
Qed.

Lemma checkout_subtotal_and_quantities_witness :
  (forall r db',
     checkout no_failures "order-1" (Some demo_store)
       (request [(guardian_id, (-5)%Z); ("not-an-id", 7%Z); (scout_id, 2%Z)])
       = (Ok r, db') ->
     subtotal r =
       float_sum ((λ l, (line_price l * to_float (line_qty l))%float)
                    <$> receipt_items r) /\
     Forall (λ l, (1 <= line_qty l)%Z) (receipt_items r) /\
     Forall2 (λ d l,
                line_id l = str (_id d) /\
                line_price l = price (body d) /\
                line_total l = (line_price l * to_float (line_qty l))%float)
       (found_of
          (request [(guardian_id, (-5)%Z); ("not-an-id", 7%Z); (scout_id, 2%Z)])
          demo_store)
       (receipt_items r)) /\
  (Forall (λ i, is_Some (Py.float_of_int (Z.max 1 (qty i))))
     (items (request [(guardian_id, (-5)%Z); ("not-an-id", 7%Z); (scout_id, 2%Z)])) ->
   exists r db',
     checkout no_failures "order-1" (Some demo_store)
       (request [(guardian_id, (-5)%Z); ("not-an-id", 7%Z); (scout_id, 2%Z)])
       = (Ok r, db')).
Proof.
  apply (checkout_subtotal_and_quantities no_failures "order-1" demo_store
           (request [(guardian_id, (-5)%Z); ("not-an-id", 7%Z); (scout_id, 2%Z)])).
  - discriminate.
  - exists {| item_id := guardian_id; qty := (-5)%Z |}.
    exists guardian_doc.
    split; [left|]. split; [right; left|]. split; reflexivity.
Defined.

(** A collection with unique identifiers holds one document per identifier. *)
Lemma filter_by_id (l : Collection) d0 :
  NoDup (ids l) -> d0 ∈ l -> filter (λ d, _id d = _id d0) l = [d0].
Proof.
  induction l as [|d l IH]; intros Hnd Hin; [by apply elem_of_nil in Hin|].
  change (ids (d :: l)) with (_id d :: ids l) in Hnd.
  apply NoDup_cons in Hnd as [Hd Hnd].
  rewrite filter_cons. apply elem_of_cons in Hin as [->|Hin].
  - rewrite decide_True by done. f_equal.
    destruct (filter _ l) as [|x xs] eqn:E; [done|]. exfalso.
    assert (x ∈ filter (λ d0 : Document, _id d0 = _id d) l) as Hx
      by (rewrite E; left).
    apply list_elem_of_filter in Hx as [Hid Hx].
    apply Hd. rewrite <- Hid. by apply list_elem_of_fmap_2.
  - rewrite decide_False; [by apply IH|].
    intros Heq. apply Hd. rewrite Heq. by apply list_elem_of_fmap_2.
Qed.

Lemma str_inj o1 o2 : str o1 = str o2 -> o1 = o2.
Proof. destruct o1, o2. unfold str. simpl. by intros ->. Qed.

(** A request with two entries for an identifier the store does not hold,
    next to one that resolves: the receipt has no line for the former. *)
Lemma checkout_duplicate_unresolved :
  exists r db',
    checkout no_failures "order-1" (Some demo_store)
      (request [("64b7f3a2c1d2e3f4051627ff", 1%Z);
                ("64b7f3a2c1d2e3f4051627ff", 3%Z);
                (runner_id, 2%Z)]) = (Ok r, db') /\
    is_valid "64b7f3a2c1d2e3f4051627ff" = true /\
    filter (λ l, line_id l = "64b7f3a2c1d2e3f4051627ff") (receipt_items r) = [] /\
    length (receipt_items r) = 1%nat.
Proof. do 2 eexists. split; [by vm_compute|]. by vm_compute. Qed.

(** C2 (amended).  Take a request on a store with unique identifiers, and
    an identifier [k] of the request that is the canonical text of a stored
    item's id.  Every receipt returned for the request has exactly one line
    for [k], and its quantity is [max(1, q)] for the quantity [q] of the
    last entry of the request that carries [k]: the last entry wins,
    quantities are not added up.  The receipt is returned whenever the
    normalised quantities of the request convert to floats. *)
Theorem checkout_duplicates_last_wins fails uuid coll payload k :
  unique_ids coll ->
  canonical k ->
  (exists d, d ∈ coll /\ _id d = of_str k) ->
  (exists i, i ∈ items payload /\ item_id i = k) ->
  (forall r db',
     checkout fails uuid (Some coll) payload = (Ok r, db') ->
     exists i l,
       last_entry k (items payload) = Some i /\
       filter (λ l, line_id l = k) (receipt_items r) = [l] /\
       line_qty l = Z.max 1 (qty i)) /\
  (Forall (λ i, is_Some (Py.float_of_int (Z.max 1 (qty i)))) (items payload) ->
   exists r db', checkout fails uuid (Some coll) payload = (Ok r, db')).
Proof.
  intros Hu [Hv Hc] (d0 & Hd0 & Hid0) (i0 & Hi0 & Hk0).
  assert (d0 ∈ found_of payload coll) as Hfound.
  { apply found_of_elem. split; [done|]. exists i0.
    split; [done|]. split; by rewrite Hk0. }
  split.
  - intros r db' H. apply checkout_ok_inv in H as (_ & _ & Hb & _).
    apply build_receipt_Some in Hb as [HF _].
    destruct (last_entry k (items payload)) as [i|] eqn:El.
    2:{ unfold last_entry in El. apply last_None in El.
        assert (i0 ∈ filter (λ i, item_id i = k) (items payload)) as Hin
          by (by apply list_elem_of_filter).
        rewrite El in Hin. by apply elem_of_nil in Hin. }
    eapply (Forall2_filter _ (λ d, _id d = _id d0) (λ l, line_id l = k)) in HF.
    2:{ intros d l [_ ->]. simpl. rewrite Hid0. split.
        - intros ->. done.
        - intros Hs. apply str_inj. by rewrite Hs. }
    rewrite filter_by_id in HF;
      [|by apply find_id_in_unique|done].
    apply Forall2_cons_inv_l in HF as (l & ls & [_ Hl] & Hnil & Hls).
    apply Forall2_nil_inv_l in Hnil as ->.
    exists i, l. split; [done|]. split; [done|].
    rewrite Hl. simpl. unfold qty_for.
    rewrite Hid0, Hc, qty_map_lookup, El. done.
  - intros Hfit. apply checkout_returns; [|by intros E; rewrite E in Hfound; apply elem_of_nil in Hfound|done].
    intros E. rewrite E in Hi0. by apply elem_of_nil in Hi0.
Qed.

Lemma checkout_duplicates_last_wins_witness :
  (forall r db',
     checkout no_failures "order-1" (Some demo_store)
       (request [(runner_id, 1%Z); (scout_id, 2%Z); (runner_id, 3%Z)])
       = (Ok r, db') ->
     exists i l,
       last_entry runner_id
         (items (request [(runner_id, 1%Z); (scout_id, 2%Z); (runner_id, 3%Z)]))
         = Some i /\
       filter (λ l, line_id l = runner_id) (receipt_items r) = [l] /\
       line_qty l = Z.max 1 (qty i)) /\
  (Forall (λ i, is_Some (Py.float_of_int (Z.max 1 (qty i))))
     (items (request [(runner_id, 1%Z); (scout_id, 2%Z); (runner_id, 3%Z)])) ->
   exists r db',
     checkout no_failures "order-1" (Some demo_store)
       (request [(runner_id, 1%Z); (scout_id, 2%Z); (runner_id, 3%Z)])
       = (Ok r, db')).
Proof.
  apply (checkout_duplicates_last_wins no_failures "order-1" demo_store
           (request [(runner_id, 1%Z); (scout_id, 2%Z); (runner_id, 3%Z)])
           runner_id).
  - apply (bool_decide_unpack _). by vm_compute.
  - split; reflexivity.
  - exists runner_doc. split; [left|reflexivity].
  - exists {| item_id := runner_id; qty := 1 |}. split; [left|reflexivity].
Defined.

(** The same duplicate request written with upper-case digits resolves to
    the same stored item, but its quantities are filed under the upper-case
    text while the loops look the document up under [str(_id)]: the line
    falls back to quantity 1. *)
Example checkout_upper_case_identifier :
  exists r db',
    checkout no_failures "order-1" (Some demo_store)
      (request [("64B7F3A2C1D2E3F405162738", 1%Z);
                ("64B7F3A2C1D2E3F405162738", 3%Z)]) = (Ok r, db') /\
    line_id <$> receipt_items r = [runner_id] /\
    line_qty <$> receipt_items r = [1%Z].
Proof. do 2 eexists. split; [by vm_compute|]. by vm_compute. Qed.

Lemma receipt_lines fails uuid coll payload r db' :
  checkout fails uuid (Some coll) payload = (Ok r, db') ->
  Forall2 (line_of (qty_map (items payload)))
    (found_of payload coll) (receipt_items r).
Proof.
  intros H. apply checkout_ok_inv in H as (_ & _ & Hb & _).
  by apply build_receipt_Some in Hb as [HF _].
Qed.

(** The response of [checkout] never depends on which counter updates
    raise. *)
Lemma checkout_response_ignores_failures fails fails' uuid db payload :
  fst (checkout fails uuid db payload) = fst (checkout fails' uuid db payload).
Proof.
  unfold checkout. destruct db as [coll|]; [|done].
  destruct (items payload); [done|].
  destruct (find_id_in _ coll); [done|].
  by destruct (build_receipt _ _) as [[??]|].
Qed.

(** What the counter loop does, in the loop's own terms.  On a store with
    unique identifiers and a request that resolves to
    at least one item: after [checkout], every resolved document has its
    [downloads] raised by exactly the quantity its receipt line shows
    (the normalised quantity of the last entry filed under the document's
    identifier text, 1 when there is none), unless the update for that
    document raised, in which case the document is as before; all other
    documents are as before; and the response is the one [checkout] gives
    when no update raises. *)
Theorem checkout_counts_downloads fails uuid coll payload :
  unique_ids coll -> items payload <> [] -> found_of payload coll <> [] ->
  snd (checkout fails uuid (Some coll) payload) =
    Some ((λ d,
             if decide (_id d ∈ lookup_ids (item_id <$> items payload)) then
               if fails (_id d) (qty_for (qty_map (items payload)) d) then d
               else inc_downloads (qty_for (qty_map (items payload)) d) d
             else d) <$> coll) /\
  (forall r, fst (checkout fails uuid (Some coll) payload) = Ok r ->
     Forall2 (λ d l,
                line_id l = str (_id d) /\
                line_qty l = qty_for (qty_map (items payload)) d /\
                line_qty l =
                  match last_entry (line_id l) (items payload) with
                  | Some i => Z.max 1 (qty i)
                  | None => 1%Z
                  end)
       (found_of payload coll) (receipt_items r)) /\
  fst (checkout fails uuid (Some coll) payload) =
    fst (checkout (λ _ _, false) uuid (Some coll) payload).
Proof.
  intros Hu Hne Hf. split; [|split].
  - rewrite checkout_found by done. cbn [snd]. f_equal.
    unfold found_of. by rewrite counter_loop_found.
  - intros r Hr.
    destruct (checkout fails uuid (Some coll) payload) as [resp db'] eqn:E.
    cbn [fst] in Hr. subst resp. apply receipt_lines in E.
    eapply Forall2_impl; [exact E|].
    intros d l [_ ->]. cbn [line_id line_qty make_line].
    split; [done|]. split; [done|].
    unfold qty_for. rewrite qty_map_lookup.
    by destruct (last_entry _ _).
  - apply checkout_response_ignores_failures.
Qed.

(** The update for the scout raises; the one for the guardian goes through. *)
Definition scout_update_fails : ObjectId -> Z -> bool :=
  λ oid _, bool_decide (oid = of_str scout_id).

Lemma checkout_counts_downloads_witness :
  snd (checkout scout_update_fails "order-1" (Some demo_store)
         (request [(guardian_id, 2%Z); (scout_id, 4%Z)])) =
    Some [runner_doc; inc_downloads 2 guardian_doc; scout_doc] /\
  fst (checkout scout_update_fails "order-1" (Some demo_store)
         (request [(guardian_id, 2%Z); (scout_id, 4%Z)])) =
    fst (checkout (λ _ _, false) "order-1" (Some demo_store)
           (request [(guardian_id, 2%Z); (scout_id, 4%Z)])).
Proof.
  pose proof (checkout_counts_downloads scout_update_fails "order-1" demo_store
                (request [(guardian_id, 2%Z); (scout_id, 4%Z)])) as H.
  destruct H as (Hs & _ & Hr).
  - apply (bool_decide_unpack _). by vm_compute.
  - discriminate.
  - discriminate.
  - split; [|exact Hr]. rewrite Hs. reflexivity.
Defined.

(** C3.  The counter of a resolved item is to go up by the normalised
    quantity of the request's last entry for that item.  [checkout] does
    that for an identifier written as [str(_id)] prints it, and not for the
    same identifier in upper case: the request below asks for 7 of the
    runner, its identifier resolves to the runner, a receipt is returned,
    and the runner's [downloads] goes from 0 to 1 (its line shows quantity
    1) where [max(1, 7)] is 7.  The lower-case request next to it raises the
    counter to 7. *)
Theorem checkout_upper_case_counter :
  resolves "64B7F3A2C1D2E3F405162738" runner_doc /\
  downloads (body runner_doc) = 0%Z /\
  Z.max 1 7 = 7%Z /\
  (exists r coll',
     checkout no_failures "order-1" (Some demo_store)
       (request [("64B7F3A2C1D2E3F405162738", 7%Z)]) = (Ok r, Some coll') /\
     line_id <$> receipt_items r = [str (_id runner_doc)] /\
     line_qty <$> receipt_items r = [1%Z] /\
     (λ d, (str (_id d), downloads (body d))) <$> coll' =
       [(runner_id, 1%Z); (guardian_id, 0%Z); (scout_id, 0%Z)]) /\
  (exists r coll',
     checkout no_failures "order-1" (Some demo_store)
       (request [("64b7f3a2c1d2e3f405162738", 7%Z)]) = (Ok r, Some coll') /\
     line_id <$> receipt_items r = [str (_id runner_doc)] /\
     line_qty <$> receipt_items r = [7%Z] /\
     (λ d, (str (_id d), downloads (body d))) <$> coll' =
       [(runner_id, 7%Z); (guardian_id, 0%Z); (scout_id, 0%Z)]).
Proof.
  split; [by split|]. split; [done|]. split; [done|].
  split; do 2 eexists; (split; [by vm_compute|]); by vm_compute.
Qed.

(** A checkout of quantity 2 on an item whose counter is 0 leaves it at 2. *)
Example checkout_two_downloads :
  downloads (body guardian_doc) = 0%Z /\
  (λ d, downloads (body d)) <$>
    default [] (snd (checkout no_failures "order-1" (Some demo_store)
                       (request [(guardian_id, 2%Z)]))) = [0; 2; 0]%Z.
Proof. split; reflexivity. Qed.

(** With no database configured, a request whose only identifier is
    malformed, so that nothing resolves, gets the 500 of the database check
    and not the 404. *)
Lemma checkout_unresolved_without_database :
  is_valid "not-an-id" = false /\
  fst (checkout no_failures "order-1" None (request [("not-an-id", 1%Z)])) =
    HTTPException 500 "Database not configured" /\
  fst (checkout no_failures "order-1" None (request [("not-an-id", 1%Z)])) <>
    HTTPException 404 "Models not found".
Proof. split; [reflexivity|]. split; [reflexivity|discriminate]. Qed.

(** C4 (amended).  A request with at least one entry, on a live store:
    when none of its identifiers resolves to a stored item (malformed or
    not stored, alike), [checkout] answers 404 "Models not found".  That is
    the only [HTTPException] such a request can get, and it gets it only
    when nothing resolves: a malformed identifier is left out of the lookup
    and causes no error of its own.  With no database configured the
    answer is 500 "Database not configured", whatever the identifiers. *)
Theorem checkout_nothing_resolves fails uuid coll payload :
  items payload <> [] ->
  ((forall i d, i ∈ items payload -> d ∈ coll -> ~ resolves (item_id i) d) ->
   checkout fails uuid (Some coll) payload =
     (HTTPException 404 "Models not found", Some coll)) /\
  (forall code detail,
     fst (checkout fails uuid (Some coll) payload) = HTTPException code detail ->
     code = 404%Z /\
     forall i d, i ∈ items payload -> d ∈ coll -> ~ resolves (item_id i) d) /\
  lookup_ids (item_id <$> items payload) =
    of_str <$> (item_id <$> filter (λ i, is_valid (item_id i)) (items payload)) /\
  checkout fails uuid None payload =
    (HTTPException 500 "Database not configured", None).
Proof.
  intros Hne. split; [|split; [|split]].
  - intros Hno. apply checkout_not_found; [done|]. by apply found_of_nil.
  - intros code detail H.
    destruct (found_of payload coll) as [|d ds] eqn:Ef.
    + rewrite checkout_not_found in H by done. cbn [fst] in H.
      injection H as <- _. split; [done|]. by apply found_of_nil.
    + rewrite checkout_found in H; [|done|by rewrite Ef]. cbn [fst] in H.
      by destruct (build_receipt _ _) as [[??]|].
  - apply lookup_ids_drops_malformed.
  - reflexivity.
Qed.

Lemma checkout_nothing_resolves_witness :
  checkout no_failures "order-1" (Some demo_store)
    (request [("not-an-id", 1%Z); ("64b7f3a2c1d2e3f4051627ff", 2%Z)]) =
  (HTTPException 404 "Models not found", Some demo_store).
Proof.
  apply (checkout_nothing_resolves no_failures "order-1" demo_store
           (request [("not-an-id", 1%Z); ("64b7f3a2c1d2e3f4051627ff", 2%Z)])).
  - discriminate.
  - apply found_of_nil. reflexivity.
Defined.

(** With no database configured, the empty request gets the 500 of the
    database check, which comes first, and not the 400 of the empty list. *)
Lemma checkout_empty_without_database :
  fst (checkout no_failures "order-1" None {| items := [] |}) =
    HTTPException 500 "Database not configured" /\
  fst (checkout no_failures "order-1" None {| items := [] |}) <>
    HTTPException 400 "No items in checkout".
Proof. split; [reflexivity|discriminate]. Qed.

(** C5 (amended).  A request with an empty list of items gets no receipt:
    on a live store [checkout] answers 400 "No items in checkout"; with no
    database configured it answers 500 "Database not configured".  The
    store is left as it was. *)
Theorem checkout_empty_request fails uuid db :
  checkout fails uuid db {| items := [] |} =
  (match db with
   | Some _ => HTTPException 400 "No items in checkout"
   | None => HTTPException 500 "Database not configured"
   end, db).
Proof. by destruct db. Qed.

(** The one download link of a receipt line is [preview_url or
    thumbnail_url] of its document, whatever the two fields hold. *)
Lemma download_links_or fails uuid coll payload r db' :
  checkout fails uuid (Some coll) payload = (Ok r, db') ->
  Forall2 (λ d l,
             line_id l = str (_id d) /\
             download_links l =
               [Py.or_ (preview_url (body d)) (thumbnail_url (body d))])
    (found_of payload coll) (receipt_items r).
Proof.
  intros H. apply receipt_lines in H.
  eapply Forall2_impl; [exact H|]. by intros d l [_ ->].
Qed.

Lemma or_present (a b : option string) :
  url_ok a -> Py.or_ a b = match a with Some u => Some u | None => b end.
Proof. unfold url_ok. by destruct a as [[|c s]|]. Qed.

(** C6.  On a store whose preview references, where present, are not the
    empty string (the schema makes them URLs): every line of a returned
    receipt belongs to one found document, in order, and carries exactly
    one download reference, namely the document's preview reference if it
    has one, else its thumbnail reference if it has one, else none. *)
Theorem checkout_download_reference fails uuid coll payload r db' :
  (forall d, d ∈ coll -> url_ok (preview_url (body d))) ->
  checkout fails uuid (Some coll) payload = (Ok r, db') ->
  Forall2 (λ d l,
             line_id l = str (_id d) /\
             download_links l =
               [ match preview_url (body d) with
                 | Some u => Some u
                 | None =>
                     match thumbnail_url (body d) with
                     | Some t => Some t
                     | None => None
                     end
                 end ])
    (found_of payload coll) (receipt_items r).
Proof.
  intros Hurl H. apply download_links_or in H.
  apply Forall2_same_length_lookup. apply Forall2_same_length_lookup in H.
  destruct H as [Hlen H]. split; [done|].
  intros i d l Hd Hl. destruct (H i d l Hd Hl) as [Hid Hdl].
  split; [done|]. rewrite Hdl, or_present.
  - by destruct (preview_url _), (thumbnail_url _).
  - apply Hurl. apply list_elem_of_lookup_2 in Hd.
    by apply found_of_elem in Hd as [? _].
Qed.

Lemma checkout_download_reference_witness :
  Forall2 (λ d l,
             line_id l = str (_id d) /\
             download_links l =
               [ match preview_url (body d) with
                 | Some u => Some u
                 | None =>
                     match thumbnail_url (body d) with
                     | Some t => Some t
                     | None => None
                     end
                 end ])
    [runner_doc; guardian_doc]
    [ make_line runner_doc 1 29 29; make_line guardian_doc 2 39 78 ].
Proof.
  apply (checkout_download_reference no_failures "order-1" demo_store
           (request [(guardian_id, 2%Z); (runner_id, 1%Z)])
           {| order_id := "order-1";
              receipt_items :=
                [ make_line runner_doc 1 29 29; make_line guardian_doc 2 39 78 ];
              subtotal := 107;
              message := "Order confirmed. Download links are ready." |}
           (Some [inc_downloads 1 runner_doc; inc_downloads 2 guardian_doc;
                  scout_doc])).
  - intros d Hd. unfold url_ok.
    repeat (apply elem_of_cons in Hd as [->|Hd]; [discriminate|]).
    by apply elem_of_nil in Hd.
  - by vm_compute.
Defined.

(** C10.  Whenever [checkout] answers with one of its [HTTPException]s
    (500 without a database, 400 for an empty list, 404 when nothing
    resolves), the store is exactly as it was before the call: all three
    checks come before the counter loop. *)
Theorem checkout_error_leaves_store fails uuid db payload code detail :
  fst (checkout fails uuid db payload) = HTTPException code detail ->
  snd (checkout fails uuid db payload) = db.
Proof.
  unfold checkout. destruct db as [coll|]; [|done].
  destruct (items payload); [done|].
  destruct (find_id_in _ coll); [done|].
  by destruct (build_receipt _ _) as [[??]|].
Qed.

Lemma checkout_error_leaves_store_witness :
  snd (checkout no_failures "order-1" (Some demo_store)
         (request [("64b7f3a2c1d2e3f4051627ff", 2%Z)])) = Some demo_store.
Proof.
  apply (checkout_error_leaves_store no_failures "order-1" (Some demo_store)
           (request [("64b7f3a2c1d2e3f4051627ff", 2%Z)])
           404%Z "Models not found").
  reflexivity.
Defined.

(** The store takes 64-bit integers: larger amounts make [update_one]
    raise. *)
Definition beyond_int64_fails : ObjectId -> Z -> bool :=
  λ _ inc, negb ((- 2 ^ 63 <=? inc)%Z && (inc <? 2 ^ 63)%Z).

(** The exception of the float conversion is not one of them: it comes
    after the counter loop, and the counters that were raised stay raised. *)
Example checkout_overflow_after_counters :
  fst (checkout beyond_int64_fails "order-1" (Some demo_store)
         (request [(guardian_id, (2 ^ 1024)%Z); (runner_id, 1%Z)])) =
    Raised "OverflowError" /\
  (λ d, downloads (body d)) <$>
    default [] (snd (checkout beyond_int64_fails "order-1" (Some demo_store)
                       (request [(guardian_id, (2 ^ 1024)%Z); (runner_id, 1%Z)])))
    = [1; 0; 0]%Z.
Proof. split; by vm_compute. Qed.

(* ===================================================================== *)
(** * The catalog listing *)
(* ===================================================================== *)

(** ** Case-insensitive substrings *)

(** [q] occurs in [s] when case is ignored: the lower-cased [s] is some
    text, then the lower-cased [q], then some text. *)
Definition occurs_ci (q s : string) : Prop :=
  exists pre post, chars (lower s) = pre ++ chars (lower q) ++ post.

Lemma chars_lower s : chars (lower s) = to_lower <$> chars s.
Proof. induction s as [|c s IH]; [done|]. simpl. by f_equal. Qed.

Lemma is_meta_plain c :
  Regex.is_meta c = false ->
  Ascii.eqb c "." = false /\ Ascii.eqb c "\" = false.
Proof.
  unfold Regex.is_meta, Regex.metachars. simpl. intros H.
  repeat (apply orb_false_iff in H as [? H]). done.
Qed.

(** A pattern without metacharacters compiles to its own characters. *)
Lemma compile_plain p :
  Forall (λ c, Regex.is_meta c = false) p ->
  Regex.compile p = Some (Regex.Lit <$> p).
Proof.
  induction 1 as [|c p Hc _ IH]; [done|].
  cbn [Regex.compile]. destruct (is_meta_plain c Hc) as [-> ->].
  by rewrite Hc, IH.
Qed.

Lemma match_here_plain q s :
  Regex.match_here true (Regex.Lit <$> q) s = true <->
  exists post, to_lower <$> s = (to_lower <$> q) ++ post.
Proof.
  revert s. induction q as [|c q IH]; intros s.
  - split; [by exists (to_lower <$> s)|done].
  - destruct s as [|x s]; [split; [done|by intros [? ?]]|].
    rewrite !fmap_cons. cbn [Regex.match_here Regex.atom_matches].
    rewrite andb_true_iff, IH, Ascii.eqb_eq. split.
    + intros [-> [post ->]]. by exists post.
    + intros [post [= -> ->]]. split; [done|by exists post].
Qed.

Lemma search_plain q s :
  Regex.search true (Regex.Lit <$> q) s = true <->
  exists pre post, to_lower <$> s = pre ++ (to_lower <$> q) ++ post.
Proof.
  induction s as [|x s IH]; cbn [Regex.search]; rewrite orb_true_iff.
  - rewrite match_here_plain. split.
    + intros [[post H]|]; [|done]. by exists [], post.
    + intros (pre & post & H). left.
      destruct pre; [by exists post|done].
  - rewrite match_here_plain, IH. split.
    + intros [[post H]|(pre & post & H)].
      * by exists [], post.
      * exists (to_lower x :: pre), post. rewrite fmap_cons, H. done.
    + intros (pre & post & H). destruct pre as [|a pre].
      * left. by exists post.
      * right. rewrite fmap_cons in H. injection H as _ H. by exists pre, post.
Qed.

(** The caseless search for a plain pattern is the case-insensitive
    substring test. *)
Lemma search_occurs_ci q s :
  Regex.search true (Regex.Lit <$> chars q) (chars s) = true <-> occurs_ci q s.
Proof.
  unfold occurs_ci. rewrite search_plain, !chars_lower. done.
Qed.

#[global] Instance occurs_ci_dec q s : Decision (occurs_ci q s).
Proof.
  refine (cast_if
            (decide (Regex.search true (Regex.Lit <$> chars q) (chars s) = true)));
    by rewrite <- search_occurs_ci.
Defined.

(** ** What the two query parameters ask of a document *)

(** [q] occurs, case ignored, in the name or in the description. *)
Definition text_matches (q : string) (d : Document) : Prop :=
  occurs_ci q (name (body d)) \/
  match description (body d) with
  | Some s => occurs_ci q s
  | None => False
  end.

#[global] Instance text_matches_dec q d : Decision (text_matches q d).
Proof. unfold text_matches. destruct (description (body d)); apply _. Defined.

(** The tag, when one is given, is among the document's tags. *)
Definition tag_matches (tag : option string) (d : Document) : Prop :=
  match tag with
  | Some (String _ _ as t) => t ∈ tags (body d)
  | _ => True
  end.

#[global] Instance tag_matches_dec tag d : Decision (tag_matches tag d).
Proof. unfold tag_matches. destruct tag as [[|c t]|]; apply _. Defined.

Lemma regex_holds_plain f q d :
  regex_holds {| cr_field := f; cr_caseless := true;
                 cr_atoms := Regex.Lit <$> chars q |} d = true <->
  match field_value f d with
  | Some s => occurs_ci q s
  | None => False
  end.
Proof.
  unfold regex_holds. cbn [cr_field cr_caseless cr_atoms].
  destruct (field_value f d); [apply search_occurs_ci|done].
Qed.

(** The filter [list_models] builds for a plain [q], once compiled. *)
Lemma compile_build_filter tag q :
  q <> "" -> Forall (λ c, Regex.is_meta c = false) (chars q) ->
  exists cf,
    compile_filter (build_filter tag (Some q)) = Some cf /\
    forall d, matches cf d = true <-> tag_matches tag d /\ text_matches q d.
Proof.
  intros Hq Hplain. destruct q as [|c q]; [done|].
  unfold build_filter, compile_filter.
  assert (forall f,
    compile_regex {| rc_field := f; rc_regex := String c q; rc_options := "i" |}
    = Some {| cr_field := f; cr_caseless := true;
              cr_atoms := Regex.Lit <$> chars (String c q) |}) as Hre.
  { intros f. unfold compile_regex. cbn [rc_options rc_regex rc_field].
    by rewrite compile_plain. }
  assert (forall d,
    existsb (λ r, regex_holds r d)
      [ {| cr_field := Name; cr_caseless := true;
           cr_atoms := Regex.Lit <$> chars (String c q) |};
        {| cr_field := Description; cr_caseless := true;
           cr_atoms := Regex.Lit <$> chars (String c q) |} ] = true
    <-> text_matches (String c q) d) as Htext.
  { intros d. cbn [existsb]. rewrite orb_false_r, orb_true_iff.
    rewrite !regex_holds_plain. done. }
  destruct tag as [[|a t]|].
  - eexists. split.
    + cbn [app mapM compile_clause]. rewrite !Hre. reflexivity.
    + intros d. unfold matches. cbn [forallb clause_holds tag_matches].
      rewrite andb_true_r, Htext. tauto.
  - eexists. split.
    + cbn [app mapM compile_clause]. rewrite !Hre. reflexivity.
    + intros d. unfold matches. cbn [forallb clause_holds tag_matches].
      rewrite andb_true_r, andb_true_iff, Htext.
      assert (existsb (λ t0, bool_decide (t0 ∈ [String a t])) (tags (body d)) = true
              <-> String a t ∈ tags (body d)) as ->; [|done].
      rewrite existsb_exists. split.
      * intros (x & Hx & Hin). apply bool_decide_eq_true in Hin.
        apply list_elem_of_singleton in Hin as ->. by apply list_elem_of_In.
      * intros Hin. exists (String a t). split; [by apply list_elem_of_In|].
        apply bool_decide_eq_true. left.
  - eexists. split.
    + cbn [app mapM compile_clause]. rewrite !Hre. reflexivity.
    + intros d. unfold matches. cbn [forallb clause_holds tag_matches].
      rewrite andb_true_r, Htext. tauto.
Qed.

(** The pattern "." is no substring of any name or description of the
    seeded store, yet the listing for [q = "."] returns every item: the
    store reads [q] as a regular expression, where the dot stands for any
    character. *)
Lemma list_models_dot_is_a_pattern :
  fst (list_models (Some demo_store) None (Some ".") 50) =
    Some (Ok (convert <$> demo_store)) /\
  Forall (λ d, ~ text_matches "." d) demo_store.
Proof.
  split; [reflexivity|].
  apply (bool_decide_unpack _). by vm_compute.
Qed.

(** C7 (amended).  On a live store, for a [q] that is not empty and has no
    regular-expression metacharacter (none of [\ ^ $ . | ? * + ( ) [ ] { }])
    and a positive [limit]: the listing returns, in store order, the first
    [limit] of the items in which [q] occurs as a case-insensitive
    substring of the name or of the description (and which carry the tag,
    when a tag is given).  The store is not written. *)
Theorem list_models_plain_text coll tag q limit :
  q <> "" ->
  Forall (λ c, Regex.is_meta c = false) (chars q) ->
  (0 < limit)%Z ->
  list_models (Some coll) tag (Some q) limit =
    (Some (Ok (convert <$>
                 take (Z.to_nat limit)
                   (filter (λ d, tag_matches tag d /\ text_matches q d) coll))),
     Some coll).
Proof.
  intros Hq Hplain _.
  destruct (compile_build_filter tag q Hq Hplain) as (cf & Hcf & Hm).
  unfold list_models, get_documents, find. rewrite Hcf. simpl.
  do 5 f_equal. apply list_filter_iff. intros d.
  by rewrite Is_true_true.
Qed.

Lemma list_models_plain_text_witness :
  list_models (Some demo_store) (Some "fantasy") (Some "ARCH") 50 =
    (Some (Ok (convert <$>
                 take (Z.to_nat 50)
                   (filter (λ d, tag_matches (Some "fantasy") d /\
                                 text_matches "ARCH" d) demo_store))),
     Some demo_store).
Proof.
  apply (list_models_plain_text demo_store (Some "fantasy") "ARCH" 50).
  - discriminate.
  - apply (bool_decide_unpack _). by vm_compute.
  - reflexivity.
Defined.

(** "neon" finds "Neon Runner". *)
Example list_models_neon :
  fst (list_models (Some demo_store) None (Some "neon") 50) =
    Some (Ok [convert runner_doc]).
Proof. reflexivity. Qed.

(** C8.  With no database configured, the listing answers the empty
    sequence for every [tag], [q] and [limit], and not an error; the
    handle it leaves is the one it was given, so nothing is written. *)
Theorem list_models_without_database tag q limit :
  list_models None tag q limit = (Some (Ok []), None).
Proof. reflexivity. Qed.

(** The listing never writes, whatever the store. *)
Lemma list_models_read_only db tag q limit :
  snd (list_models db tag q limit) = db.
Proof.
  unfold list_models. destruct db as [coll|]; [|done].
  by destruct (get_documents _ _ _).
Qed.

(* ===================================================================== *)
(** * The seed helper *)
(* ===================================================================== *)

Definition already_seeded : SeedReply :=
  {| seeded := false;
     seed_message := Some "Collection already has documents";
     seed_count := None |}.

Lemma seed_non_empty new_id d coll :
  seed_demo_models new_id (Some (d :: coll)) = (Ok already_seeded, Some (d :: coll)).
Proof.
  unfold seed_demo_models, count_documents.
  destruct (0 <? Z.of_nat (length (d :: coll)))%Z eqn:E; [done|].
  apply Z.ltb_ge in E. simpl in E. lia.
Qed.

Lemma seed_empty new_id :
  seed_demo_models new_id (Some []) =
  (Ok {| seeded := true; seed_message := None; seed_count := Some 3%Z |},
   Some [ {| _id := new_id []; body := neon_runner |};
          {| _id := new_id [ {| _id := new_id []; body := neon_runner |} ];
             body := forest_guardian |};
          {| _id := new_id [ {| _id := new_id []; body := neon_runner |};
                             {| _id := new_id [ {| _id := new_id [];
                                                   body := neon_runner |} ];
                                body := forest_guardian |} ];
             body := mech_scout |} ]).
Proof. reflexivity. Qed.

(** C9.  On a live store, whatever identifiers the driver hands out: on
    the empty collection the seed inserts exactly the three demonstration
    items and reports [seeded: true, count: 3]; on a collection with at
    least one document, whatever it holds, it writes nothing and reports
    [seeded: false]; hence a second call right after a first one reports
    [seeded: false] and leaves the collection, and so its count, as the
    first call left it.  In every state of the database handle, a second
    call changes nothing. *)
Theorem seed_is_idempotent new_id :
  (exists coll3,
     seed_demo_models new_id (Some []) =
       (Ok {| seeded := true; seed_message := None; seed_count := Some 3%Z |},
        Some coll3) /\
     body <$> coll3 = demo_items /\ count_documents coll3 = 3%Z) /\
  (forall d coll,
     seed_demo_models new_id (Some (d :: coll)) =
       (Ok already_seeded, Some (d :: coll))) /\
  (forall coll,
     seed_demo_models new_id (snd (seed_demo_models new_id (Some coll))) =
       (Ok already_seeded, snd (seed_demo_models new_id (Some coll)))) /\
  (forall db,
     snd (seed_demo_models new_id (snd (seed_demo_models new_id db))) =
       snd (seed_demo_models new_id db)).
Proof.
  assert (forall coll,
     seed_demo_models new_id (snd (seed_demo_models new_id (Some coll))) =
       (Ok already_seeded, snd (seed_demo_models new_id (Some coll)))) as Htwice.
  { intros [|d coll].
    - rewrite seed_empty. cbn [snd]. apply seed_non_empty.
    - rewrite seed_non_empty. cbn [snd]. apply seed_non_empty. }
  split; [|split; [|split]].
  - eexists. rewrite seed_empty. done.
  - apply seed_non_empty.
  - exact Htwice.
  - intros [coll|]; [by rewrite Htwice|reflexivity].
Qed.

(** Seeding the empty store twice: three items, then no change. *)
Example seed_twice :
  let first := seed_demo_models demo_new_id (Some []) in
  let second := seed_demo_models demo_new_id (snd first) in
  snd first = Some demo_store /\
  fst second = Ok already_seeded /\
  snd second = Some demo_store.
Proof. by vm_compute. Qed.

(** Without a database the seed answers 500 and has nothing to write to. *)
Lemma seed_without_database new_id :
  seed_demo_models new_id None =
  (HTTPException 500 "Database not configured", None).
Proof. reflexivity. Qed.

(* ===================================================================== *)
(** * Further properties of the checkout *)
(* ===================================================================== *)

(** ** What a checkout can do to a stored document *)

(** [d'] is [d] with its counter raised by some amount that is not
    negative: same [_id], same fields, [downloads] not smaller. *)
Definition raised (d d' : Document) : Prop :=
  exists n, (0 <= n)%Z /\ d' = inc_downloads n d.

Lemma inc_downloads_0 d : inc_downloads 0 d = d.
Proof.
  destruct d as [o b], b. unfold inc_downloads. simpl.
  by rewrite Z.add_0_r.
Qed.

Lemma inc_downloads_add a b d :
  inc_downloads a (inc_downloads b d) = inc_downloads (b + a) d.
Proof. unfold inc_downloads. simpl. by rewrite Z.add_assoc. Qed.

Lemma raised_refl d : raised d d.
Proof. exists 0%Z. by rewrite inc_downloads_0. Qed.

Lemma raised_inc n d d' :
  (0 <= n)%Z -> raised d d' -> raised d (inc_downloads n d').
Proof.
  intros Hn (k & Hk & ->). exists (k + n)%Z.
  split; [lia|apply inc_downloads_add].
Qed.

Lemma raised_id d d' : raised d d' -> _id d' = _id d.
Proof. by intros (n & _ & ->). Qed.

Lemma raised_all_refl (coll : Collection) : Forall2 raised coll coll.
Proof. induction coll; constructor; [apply raised_refl|done]. Qed.

Lemma apply_inc_raised oid inc (coll0 coll : Collection) :
  (0 <= inc)%Z -> Forall2 raised coll0 coll ->
  Forall2 raised coll0 (apply_inc oid inc coll).
Proof.
  intros Hinc. induction 1 as [|d0 d coll0 coll Hd Hrest IH]; [constructor|].
  cbn [apply_inc]. destruct (decide (_id d = oid)).
  - constructor; [by apply raised_inc|done].
  - by constructor.
Qed.

Lemma bump_raised fails its (coll0 coll : Collection) doc :
  Forall2 raised coll0 coll ->
  Forall2 raised coll0 (bump fails (qty_map its) coll doc).
Proof.
  intros H. unfold bump, update_one.
  destruct (fails _ _); [done|].
  apply apply_inc_raised; [|done].
  pose proof (qty_for_ge_1 its doc). lia.
Qed.

Lemma counter_loop_raised fails its (coll0 coll found : Collection) :
  Forall2 raised coll0 coll ->
  Forall2 raised coll0 (foldl (bump fails (qty_map its)) coll found).
Proof.
  revert coll. induction found as [|x found IH]; intros coll H; [done|].
  cbn [foldl]. apply IH. by apply bump_raised.
Qed.

(** X1.  Whatever the request and whichever updates raise, a checkout on a
    live store leaves a store with the same documents in the same order:
    each one keeps its [_id] and all its fields, and its [downloads] is what
    it was plus an amount that is not negative.  No document is added,
    removed or reordered, and no counter goes down. *)
Theorem checkout_keeps_documents fails uuid coll payload :
  exists coll',
    snd (checkout fails uuid (Some coll) payload) = Some coll' /\
    Forall2 raised coll coll'.
Proof.
  unfold checkout. destruct (items payload) as [|i its] eqn:Ei.
  { exists coll. split; [done|apply raised_all_refl]. }
  destruct (find_id_in _ coll) as [|d ds] eqn:Ef.
  { exists coll. split; [done|apply raised_all_refl]. }
  eexists. split.
  - by destruct (build_receipt _ _) as [[??]|].
  - apply counter_loop_raised, raised_all_refl.
Qed.

(** ** Counting the downloads *)

Definition Zsum (l : list Z) : Z := foldr Z.add 0%Z l.

Definition total_downloads (coll : Collection) : Z :=
  Zsum ((λ d, downloads (body d)) <$> coll).

(** The amount the counter loop adds for a found document. *)
Definition counted_amount (fails : ObjectId -> Z -> bool) (m : gmap string Z)
    (d : Document) : Z :=
  if fails (_id d) (qty_for m d) then 0%Z else qty_for m d.

Lemma total_downloads_counted fails m (oids : list ObjectId) (coll : Collection) :
  total_downloads
    ((λ d, if decide (_id d ∈ oids) then counted fails m d else d) <$> coll) =
  (total_downloads coll +
   Zsum (counted_amount fails m <$> find_id_in oids coll))%Z.
Proof.
  unfold total_downloads, find_id_in, Zsum.
  induction coll as [|d coll IH]; [done|].
  rewrite !fmap_cons, filter_cons. cbn [foldr]. rewrite IH.
  destruct (decide (_id d ∈ oids)).
  - rewrite fmap_cons. cbn [foldr]. unfold counted, counted_amount.
    destruct (fails _ _); simpl; lia.
  - lia.
Qed.

Lemma line_quantities m (found : Collection) (ls : list LineItem) :
  Forall2 (line_of m) found ls -> line_qty <$> ls = qty_for m <$> found.
Proof.
  induction 1 as [|d l found ls [_ ->] _ IH]; [done|].
  rewrite !fmap_cons. by f_equal.
Qed.

Lemma found_of_no_items payload coll :
  items payload = [] -> found_of payload coll = [].
Proof.
  intros E. apply found_of_nil. intros i d Hi. rewrite E in Hi.
  by apply elem_of_nil in Hi.
Qed.

(** X2.  On a store with unique identifiers, a checkout adds to the sum of
    all download counters exactly the quantities of the found documents
    whose update did not raise; when a receipt is returned these are the
    quantities of its lines, so with no failing update the counters go up,
    in total, by the sum of the receipt's quantities. *)
Theorem checkout_total_downloads fails uuid coll payload :
  unique_ids coll ->
  exists coll',
    snd (checkout fails uuid (Some coll) payload) = Some coll' /\
    total_downloads coll' =
      (total_downloads coll +
       Zsum (counted_amount fails (qty_map (items payload))
               <$> found_of payload coll))%Z /\
    (forall r, fst (checkout fails uuid (Some coll) payload) = Ok r ->
       line_qty <$> receipt_items r =
         qty_for (qty_map (items payload)) <$> found_of payload coll /\
       ((forall oid n, fails oid n = false) ->
        total_downloads coll' =
          (total_downloads coll + Zsum (line_qty <$> receipt_items r))%Z)).
Proof.
  intros Hu.
  assert (forall r, fst (checkout fails uuid (Some coll) payload) = Ok r ->
            line_qty <$> receipt_items r =
              qty_for (qty_map (items payload)) <$> found_of payload coll) as Hq.
  { intros r Hr.
    destruct (checkout fails uuid (Some coll) payload) as [resp db'] eqn:E.
    cbn [fst] in Hr. subst resp. apply receipt_lines in E.
    by apply line_quantities. }
  assert (forall coll',
            total_downloads coll' =
              (total_downloads coll +
               Zsum (counted_amount fails (qty_map (items payload))
                       <$> found_of payload coll))%Z ->
            forall r, fst (checkout fails uuid (Some coll) payload) = Ok r ->
            line_qty <$> receipt_items r =
              qty_for (qty_map (items payload)) <$> found_of payload coll /\
            ((forall oid n, fails oid n = false) ->
             total_downloads coll' =
               (total_downloads coll + Zsum (line_qty <$> receipt_items r))%Z))
    as Hfin.
  { intros coll' Ht r Hr. split; [by apply Hq|].
    intros Hnf. rewrite Ht, (Hq r Hr). do 2 f_equal.
    apply list_fmap_ext. intros _ d _. unfold counted_amount. by rewrite Hnf. }
  assert (items payload = [] \/ items payload <> []) as [Ei|Ei]
    by (destruct (items payload); [by left|by right]).
  { exists coll. pose proof (found_of_no_items payload coll Ei) as Hnil.
    split; [unfold checkout; by rewrite Ei|].
    split; [|apply Hfin]; rewrite Hnil; simpl; lia. }
  assert (found_of payload coll = [] \/ found_of payload coll <> []) as [Ef|Ef]
    by (destruct (found_of payload coll); [by left|by right]).
  { exists coll. split; [by rewrite checkout_not_found|].
    split; [|apply Hfin]; rewrite Ef; simpl; lia. }
  eexists. split; [by rewrite checkout_found|].
  assert (total_downloads
            (foldl (bump fails (qty_map (items payload))) coll
               (found_of payload coll)) =
          (total_downloads coll +
           Zsum (counted_amount fails (qty_map (items payload))
                   <$> found_of payload coll))%Z) as Ht.
  { unfold found_of. rewrite counter_loop_found by done.
    apply total_downloads_counted. }
  split; [exact Ht|by apply Hfin].
Qed.

Lemma checkout_total_downloads_witness :
  exists coll',
    snd (checkout scout_update_fails "order-1" (Some demo_store)
           (request [(guardian_id, 2%Z); (scout_id, 4%Z)])) = Some coll' /\
    total_downloads coll' = 2%Z.
Proof.
  destruct (checkout_total_downloads scout_update_fails "order-1" demo_store
              (request [(guardian_id, 2%Z); (scout_id, 4%Z)]))
    as (coll' & Hs & Ht & _).
  - apply (bool_decide_unpack _). by vm_compute.
  - exists coll'. split; [exact Hs|]. rewrite Ht. reflexivity.
Defined.

(** ** The lines of a receipt *)

Lemma line_ids m (found : Collection) (ls : list LineItem) :
  Forall2 (line_of m) found ls -> line_id <$> ls = str <$> ids found.
Proof.
  induction 1 as [|d l found ls [_ ->] _ IH]; [done|].
  unfold ids in *. rewrite !fmap_cons. by f_equal.
Qed.

Lemma found_ids_looked_up payload coll :
  ids (found_of payload coll) ⊆ lookup_ids (item_id <$> items payload).
Proof.
  intros oid Hin. unfold ids in Hin.
  apply list_elem_of_fmap in Hin as (d & -> & Hd).
  unfold found_of, find_id_in in Hd.
  by apply list_elem_of_filter in Hd as [? _].
Qed.

(** X5.  On a store with unique identifiers the lines of a receipt carry
    pairwise different identifiers, and there are at most as many lines as
    the request has entries: an item entered several times, in whatever
    case, gets one line. *)
Theorem checkout_lines_distinct fails uuid coll payload r db' :
  unique_ids coll ->
  checkout fails uuid (Some coll) payload = (Ok r, db') ->
  NoDup (line_id <$> receipt_items r) /\
  length (receipt_items r) <= length (items payload).
Proof.
  intros Hu H. apply receipt_lines in H.
  pose proof (find_id_in_unique
                (lookup_ids (item_id <$> items payload)) coll Hu) as Hnd.
  fold (found_of payload coll) in Hnd.
  split.
  - rewrite (line_ids _ _ _ H). apply NoDup_fmap_2; [|done].
    intros o1 o2. apply str_inj.
  - apply Forall2_length in H. rewrite <- H.
    transitivity (length (lookup_ids (item_id <$> items payload))).
    + rewrite <- (length_fmap _id (found_of payload coll)).
      apply submseteq_length, NoDup_submseteq; [done|].
      apply found_ids_looked_up.
    + unfold lookup_ids. rewrite length_fmap.
      etrans; [apply length_filter|]. by rewrite length_fmap.
Qed.

Lemma checkout_lines_distinct_witness :
  NoDup (line_id <$> [make_line runner_doc 3 29 87]) /\
  length [make_line runner_doc 3 29 87] <=
  length (items (request [(runner_id, 1%Z); ("64B7F3A2C1D2E3F405162738", 5%Z);
                          (runner_id, 3%Z)])).
Proof.
  apply (checkout_lines_distinct no_failures "order-1" demo_store
           (request [(runner_id, 1%Z); ("64B7F3A2C1D2E3F405162738", 5%Z);
                     (runner_id, 3%Z)])
           {| order_id := "order-1";
              receipt_items := [make_line runner_doc 3 29 87];
              subtotal := 87;
              message := "Order confirmed. Download links are ready." |}
           (Some [inc_downloads 3 runner_doc; guardian_doc; scout_doc])).
  - apply (bool_decide_unpack _). by vm_compute.
  - by vm_compute.
Defined.

(** ** Identifiers: case and malformed entries *)

(** The text [str(_id)] of a found document is in lower case. *)
Lemma found_lower payload coll d :
  d ∈ found_of payload coll -> lower (str (_id d)) = str (_id d).
Proof.
  intros Hd. apply found_of_elem in Hd as (_ & i & _ & _ & <-).
  apply str_of_str_lower.
Qed.

Lemma last_entry_valid_only its k :
  is_valid k = true ->
  last_entry k (filter (λ i, is_valid (item_id i)) its) = last_entry k its.
Proof.
  intros Hk. unfold last_entry. f_equal.
  rewrite list_filter_filter. apply list_filter_iff.
  intros i. split; [tauto|]. intros <-. split; [done|].
  by apply Is_true_true.
Qed.

Lemma bump_loop_ext fails m m' (coll found : Collection) :
  (forall d, d ∈ found -> qty_for m d = qty_for m' d) ->
  foldl (bump fails m) coll found = foldl (bump fails m') coll found.
Proof.
  revert coll. induction found as [|x found IH]; intros coll H; [done|].
  cbn [foldl]. unfold bump at 2 4. rewrite (H x) by left.
  apply IH. intros d Hd. apply H. by right.
Qed.

Lemma receipt_loop_ext m m' (found : Collection) acc :
  (forall d, d ∈ found -> qty_for m d = qty_for m' d) ->
  foldl (add_line m) acc found = foldl (add_line m') acc found.
Proof.
  revert acc. induction found as [|x found IH]; intros acc H; [done|].
  cbn [foldl]. unfold add_line at 2 4. rewrite (H x) by left.
  apply IH. intros d Hd. apply H. by right.
Qed.

Lemma found_of_valid_only payload coll :
  found_of {| items := filter (λ i, is_valid (item_id i)) (items payload) |} coll
  = found_of payload coll.
Proof.
  unfold found_of. cbn [items].
  rewrite !lookup_ids_drops_malformed. do 3 f_equal.
  rewrite list_filter_filter. apply list_filter_iff. tauto.
Qed.

(** A text of 24 characters with whitespace in front of a pair of digits
    passes [ObjectId.is_valid] and makes a shorter ObjectId, which the
    lookup sends to the store with the others. *)
Example is_valid_with_whitespace :
  is_valid "                        " = true /\
  of_str "                        " = mkObjectId "" /\
  is_valid "64b7f3a2c1d2e3f40516  38" = true /\
  of_str "64b7f3a2c1d2e3f40516  38" = mkObjectId "64b7f3a2c1d2e3f4051638" /\
  is_valid "64b7f3a2c1d2e3f405162 38" = false /\
  lookup_ids ["                        "; "not-an-id"] = [mkObjectId ""].
Proof. repeat split. Qed.

(** X3.  On a store whose identifiers all print as valid ObjectId texts
    (as the twelve-byte ids the store assigns do), entries whose identifier
    [ObjectId.is_valid] rejects count for nothing: as long as one valid
    entry is left, striking the rejected entries from a request changes
    neither the response nor the store afterwards.  (With no valid entry
    left the struck request is empty and gets the 400 instead of the
    404.) *)
Theorem checkout_ignores_malformed_entries fails uuid coll payload :
  (forall d, d ∈ coll -> is_valid (str (_id d)) = true) ->
  filter (λ i, is_valid (item_id i)) (items payload) <> [] ->
  checkout fails uuid (Some coll)
    {| items := filter (λ i, is_valid (item_id i)) (items payload) |}
  = checkout fails uuid (Some coll) payload.
Proof.
  intros Hwf Hne.
  set (payload' :=
         {| items := filter (λ i, is_valid (item_id i)) (items payload) |}).
  assert (items payload <> []) as Hne'.
  { intros E. apply Hne. by rewrite E. }
  pose proof (found_of_valid_only payload coll) as Hfound.
  fold payload' in Hfound.
  assert (found_of payload coll = [] \/ found_of payload coll <> []) as [Ef|Ef]
    by (destruct (found_of payload coll); [by left|by right]).
  { rewrite !checkout_not_found; try done. by rewrite Hfound. }
  assert (forall d, d ∈ found_of payload coll ->
            qty_for (qty_map (items payload')) d =
            qty_for (qty_map (items payload)) d) as Hq.
  { intros d Hd. apply found_of_elem in Hd as [Hd _].
    unfold qty_for. rewrite !qty_map_lookup. cbn [items payload'].
    by rewrite last_entry_valid_only by (by apply Hwf). }
  rewrite !checkout_found; try done; [|by rewrite Hfound].
  rewrite Hfound. unfold build_receipt.
  rewrite (receipt_loop_ext _ _ _ _ Hq), (bump_loop_ext _ _ _ _ _ Hq).
  done.
Qed.

Lemma checkout_ignores_malformed_entries_witness :
  checkout no_failures "order-1" (Some demo_store)
    {| items :=
         filter (λ i, is_valid (item_id i))
           (items (request [("not-an-id", 9%Z); (scout_id, 2%Z); ("", 1%Z)])) |}
  = checkout no_failures "order-1" (Some demo_store)
      (request [("not-an-id", 9%Z); (scout_id, 2%Z); ("", 1%Z)]).
Proof.
  apply (checkout_ignores_malformed_entries no_failures "order-1" demo_store
           (request [("not-an-id", 9%Z); (scout_id, 2%Z); ("", 1%Z)])).
  - intros d Hd.
    repeat (apply elem_of_cons in Hd as [->|Hd]; [reflexivity|]).
    by apply elem_of_nil in Hd.
  - discriminate.
Defined.

(** X4.  The quantities of a request are filed under the identifier as it
    was sent, and looked up under the lower-case text of the stored id.  So
    when every identifier of a request has an upper-case letter in it, every
    line of the receipt has quantity 1, whatever quantities were asked for. *)
Theorem checkout_upper_case_quantities fails uuid coll payload r db' :
  (forall i, i ∈ items payload -> lower (item_id i) <> item_id i) ->
  checkout fails uuid (Some coll) payload = (Ok r, db') ->
  Forall (λ l, line_qty l = 1%Z) (receipt_items r).
Proof.
  intros Hup H. apply receipt_lines in H.
  pose proof (Forall2_length _ _ _ H) as Hlen.
  apply Forall2_same_length_lookup in H as [_ H].
  apply Forall_lookup. intros n l Hl.
  destruct (found_of payload coll !! n) as [d|] eqn:Hd.
  2:{ apply lookup_lt_Some in Hl. apply lookup_ge_None in Hd. lia. }
  destruct (H n d l Hd Hl) as [_ ->]. cbn [line_qty make_line].
  unfold qty_for. rewrite qty_map_lookup.
  destruct (last_entry _ _) as [i|] eqn:El; [|done]. exfalso.
  apply last_entry_elem in El as [Hi Hk].
  apply list_elem_of_lookup_2, found_lower in Hd as Hlow.
  apply (Hup i Hi). by rewrite Hk.
Qed.

Lemma checkout_upper_case_quantities_witness :
  Forall (λ l, line_qty l = 1%Z) [make_line runner_doc 1 29 29].
Proof.
  apply (checkout_upper_case_quantities no_failures "order-1" demo_store
           (request [("64B7F3A2C1D2E3F405162738", 7%Z)])
           {| order_id := "order-1";
              receipt_items := [make_line runner_doc 1 29 29];
              subtotal := 29;
              message := "Order confirmed. Download links are ready." |}
           (Some [inc_downloads 1 runner_doc; guardian_doc; scout_doc])).
  - intros i Hi. apply list_elem_of_singleton in Hi as ->. discriminate.
  - by vm_compute.
Defined.

(** ** The response does not read the counters *)

Lemma found_raised oids (coll coll' : Collection) :
  Forall2 raised coll coll' ->
  Forall2 raised (find_id_in oids coll) (find_id_in oids coll').
Proof.
  intros H. unfold find_id_in. eapply Forall2_filter; [|exact H].
  intros d d' Hr. by rewrite (raised_id _ _ Hr).
Qed.

Lemma add_line_raised_doc m acc d d' :
  raised d d' -> add_line m acc d' = add_line m acc d.
Proof. intros (n & _ & ->). by destruct acc as [[??]|]. Qed.

Lemma build_receipt_raised m (found found' : Collection) :
  Forall2 raised found found' ->
  build_receipt m found' = build_receipt m found.
Proof.
  unfold build_receipt. generalize (Some ([] : list LineItem, 0%float)).
  intros acc H. revert acc.
  induction H as [|d d' found found' Hd _ IH]; intros acc; [done|].
  cbn [foldl]. by rewrite (add_line_raised_doc _ _ _ _ Hd), IH.
Qed.

Lemma checkout_response_raised fails fails' uuid (coll coll' : Collection) payload :
  Forall2 raised coll coll' ->
  fst (checkout fails' uuid (Some coll') payload) =
  fst (checkout fails uuid (Some coll) payload).
Proof.
  intros H. unfold checkout. destruct (items payload) as [|i its]; [done|].
  pose proof (found_raised (lookup_ids (item_id <$> i :: its)) _ _ H) as Hf.
  pose proof (build_receipt_raised (qty_map (i :: its)) _ _ Hf) as Hb.
  destruct Hf as [|d d' ds ds' Hd Hds]; [done|].
  rewrite Hb. destruct (build_receipt _ (d :: ds)) as [[??]|]; reflexivity.
Qed.

(** X6.  The response of a checkout does not depend on the download
    counters: sent again after a first checkout (whichever of its updates
    went through), a request gets the response the first one would have got
    under the same order identifier: same lines, same quantities, same
    subtotal, or the same error. *)
Theorem checkout_replay fails fails' uuid0 uuid db payload :
  fst (checkout fails' uuid (snd (checkout fails uuid0 db payload)) payload) =
  fst (checkout fails uuid db payload).
Proof.
  destruct db as [coll|]; [|done].
  assert (exists coll',
            snd (checkout fails uuid0 (Some coll) payload) = Some coll' /\
            Forall2 raised coll coll') as (coll' & -> & Hr).
  { unfold checkout. destruct (items payload) as [|i its].
    { exists coll. split; [done|apply raised_all_refl]. }
    destruct (find_id_in _ coll) as [|d ds].
    { exists coll. split; [done|apply raised_all_refl]. }
    eexists. split.
    - by destruct (build_receipt _ _) as [[??]|].
    - apply counter_loop_raised, raised_all_refl. }
  by apply checkout_response_raised.
Qed.

(* ===================================================================== *)
(** * The store over any sequence of calls *)
(* ===================================================================== *)

(** The calls that reach the store. *)
Inductive Call :=
  | PostSeed
  | GetModels (tag q : option string) (limit : Z)
  | PostCheckout (fails : ObjectId -> Z -> bool) (uuid : string)
      (payload : CheckoutRequest).

Definition after_call (new_id : Collection -> ObjectId) (db : Db) (c : Call) : Db :=
  match c with
  | PostSeed => snd (seed_demo_models new_id db)
  | GetModels tag q limit => snd (list_models db tag q limit)
  | PostCheckout fails uuid payload => snd (checkout fails uuid db payload)
  end.

Definition after_calls (new_id : Collection -> ObjectId) (db : Db)
    (calls : list Call) : Db :=
  foldl (after_call new_id) db calls.

(** The collection [POST /seed] makes of the empty one. *)
Definition seeded (new_id : Collection -> ObjectId) : Collection :=
  foldl (create_document new_id) [] demo_items.

Lemma raised_trans d1 d2 d3 : raised d1 d2 -> raised d2 d3 -> raised d1 d3.
Proof.
  intros (a & Ha & ->) (b & Hb & ->). exists (a + b)%Z.
  split; [lia|apply inc_downloads_add].
Qed.

Lemma raised_all_trans (c1 c2 c3 : Collection) :
  Forall2 raised c1 c2 -> Forall2 raised c2 c3 -> Forall2 raised c1 c3.
Proof.
  intros H. revert c3. induction H as [|d1 d2 c1 c2 Hd _ IH]; intros c3 H3.
  - by apply Forall2_nil_inv_l in H3 as ->.
  - apply Forall2_cons_inv_l in H3 as (d3 & c3' & Hd3 & Hc3 & ->).
    constructor; [by eapply raised_trans|by apply IH].
Qed.

Lemma raised_constraints d d' :
  raised d d' -> constraints_hold (body d) = true ->
  constraints_hold (body d') = true.
Proof.
  intros (n & Hn & ->). unfold constraints_hold, inc_downloads. simpl.
  rewrite !andb_true_iff. intros [[Hp Hr] Hd]. repeat split; [done|done|].
  apply Z.leb_le in Hd. apply Z.leb_le. lia.
Qed.

Lemma demo_items_constraints :
  Forall (λ m, constraints_hold m = true) demo_items.
Proof. repeat constructor. Qed.

(** What the store can be: empty, or the seeded collection with counters
    raised. *)
Definition seeded_or_empty (new_id : Collection -> ObjectId) (db : Db) : Prop :=
  exists coll, db = Some coll /\ (coll = [] \/ Forall2 raised (seeded new_id) coll).

Lemma after_call_seeded_or_empty new_id db c :
  seeded_or_empty new_id db -> seeded_or_empty new_id (after_call new_id db c).
Proof.
  intros (coll & -> & Hc). destruct c as [|tag q limit|fails uuid payload].
  - cbn [after_call]. destruct Hc as [->|Hc].
    + exists (seeded new_id). split; [done|]. right. apply raised_all_refl.
    + destruct coll as [|d coll]; [by inversion Hc|].
      rewrite seed_non_empty. exists (d :: coll). split; [done|by right].
  - cbn [after_call]. rewrite list_models_read_only. by exists coll.
  - cbn [after_call].
    assert (exists coll',
              snd (checkout fails uuid (Some coll) payload) = Some coll' /\
              Forall2 raised coll coll') as (coll' & -> & Hr).
    { unfold checkout. destruct (items payload) as [|i its].
      { exists coll. split; [done|apply raised_all_refl]. }
      destruct (find_id_in _ coll) as [|d ds].
      { exists coll. split; [done|apply raised_all_refl]. }
      eexists. split.
      - by destruct (build_receipt _ _) as [[??]|].
      - apply counter_loop_raised, raised_all_refl. }
    exists coll'. split; [done|]. destruct Hc as [->|Hc].
    + left. by apply Forall2_nil_inv_l in Hr.
    + right. by eapply raised_all_trans.
Qed.

(** X7.  Start from an empty live store and make any calls to [POST
    /seed], [GET /models] and [POST /checkout], in any order, with any
    arguments and any failing counter updates.  The store stays live, and
    its collection is either still empty or the three seeded documents, in
    order, with nothing changed but download counters that were raised; in
    particular every stored document meets the numeric constraints of the
    schema ([price >= 0], [0 <= rating <= 5], [downloads >= 0]). *)
Theorem store_stays_seeded_or_empty new_id calls :
  exists coll,
    after_calls new_id (Some []) calls = Some coll /\
    (coll = [] \/ Forall2 raised (seeded new_id) coll) /\
    Forall (λ d, constraints_hold (body d) = true) coll.
Proof.
  assert (seeded_or_empty new_id (after_calls new_id (Some []) calls))
    as (coll & Hc & Hinv).
  { unfold after_calls.
    assert (seeded_or_empty new_id (Some [])) as H0
      by (exists []; split; [done|by left]).
    revert H0. generalize (Some [] : Db).
    induction calls as [|c calls IH]; intros db Hdb; [done|].
    cbn [foldl]. by apply IH, after_call_seeded_or_empty. }
  exists coll. split; [done|]. split; [done|].
  destruct Hinv as [->|Hr]; [constructor|].
  assert (Forall (λ d, constraints_hold (body d) = true) (seeded new_id)) as Hs
    by (repeat constructor).
  clear Hc. induction Hr as [|d d' c c' Hd _ IH]; [constructor|].
  inversion Hs; subst. constructor; [by eapply raised_constraints|by apply IH].
Qed.

(* ===================================================================== *)
(** * Further properties of the listing *)
(* ===================================================================== *)

Lemma compile_tag_filter tag q :
  Py.truthy q = false ->
  exists cf,
    compile_filter (build_filter tag q) = Some cf /\
    forall d, matches cf d = true <-> tag_matches tag d.
Proof.
  intros Hq. assert (build_filter tag q = build_filter tag None) as ->.
  { unfold build_filter. by destruct q as [[|c q]|]. }
  unfold build_filter, compile_filter. rewrite app_nil_r.
  destruct tag as [[|a t]|].
  - exists []. by split.
  - eexists. split; [reflexivity|]. intros d. unfold matches.
    cbn [forallb clause_holds tag_matches]. rewrite andb_true_r.
    rewrite existsb_exists. split.
    + intros (x & Hx & Hin). apply bool_decide_eq_true in Hin.
      apply list_elem_of_singleton in Hin as ->. by apply list_elem_of_In.
    + intros Hin. exists (String a t). split; [by apply list_elem_of_In|].
      apply bool_decide_eq_true. left.
  - exists []. by split.
Qed.

(** X8.  On a live store, when [q] is absent or empty: the listing returns,
    in store order, the first [limit] of the documents that have [tag]
    among their tags (the very string, case and all), and, when [tag] is
    absent or empty too, simply the first [limit] documents.  Each comes
    back with its [_id] rendered as the string [id]; the store is not
    written. *)
Theorem list_models_by_tag coll tag q limit :
  Py.truthy q = false ->
  (0 < limit)%Z ->
  list_models (Some coll) tag q limit =
    (Some (Ok (convert <$>
                 take (Z.to_nat limit) (filter (tag_matches tag) coll))),
     Some coll) /\
  (Py.truthy tag = false -> filter (tag_matches tag) coll = coll).
Proof.
  intros Hq _. split.
  - destruct (compile_tag_filter tag q Hq) as (cf & Hcf & Hm).
    unfold list_models, get_documents, find. rewrite Hcf. simpl.
    do 5 f_equal. apply list_filter_iff. intros d.
    by rewrite Is_true_true.
  - intros Ht. assert (forall d, tag_matches tag d) as Hall.
    { intros d. by destruct tag as [[|a t]|]. }
    induction coll as [|d coll IH]; [done|].
    rewrite filter_cons, decide_True by done. by rewrite IH.
Qed.

Lemma list_models_by_tag_witness :
  list_models (Some demo_store) (Some "fantasy") (Some "") 50 =
    (Some (Ok (convert <$>
                 take (Z.to_nat 50)
                   (filter (tag_matches (Some "fantasy")) demo_store))),
     Some demo_store) /\
  (Py.truthy (Some "fantasy") = false ->
   filter (tag_matches (Some "fantasy")) demo_store = demo_store).
Proof.
  apply (list_models_by_tag demo_store (Some "fantasy") (Some "") 50);
    reflexivity.
Defined.

(** The tag is compared as it stands: "Fantasy" finds nothing where
    "fantasy" finds the guardian. *)
Example list_models_tag_case :
  fst (list_models (Some demo_store) (Some "fantasy") None 50) =
    Some (Ok [convert guardian_doc]) /\
  fst (list_models (Some demo_store) (Some "Fantasy") None 50) = Some (Ok []).
Proof. split; reflexivity. Qed.

(** ** From the listing to the checkout *)

Lemma found_of_single coll d q :
  unique_ids coll -> d ∈ coll -> canonical (str (_id d)) ->
  found_of {| items := [ {| item_id := str (_id d); qty := q |} ] |} coll = [d].
Proof.
  intros Hu Hd [Hv Hc]. unfold found_of, lookup_ids, find_id_in. cbn [items].
  rewrite fmap_cons, fmap_nil. cbn [item_id].
  rewrite filter_cons, decide_True by (by apply Is_true_true).
  rewrite filter_nil, fmap_cons, fmap_nil.
  assert (of_str (str (_id d)) = _id d) as -> by (by apply str_inj).
  rewrite <- (filter_by_id coll d Hu Hd).
  apply list_filter_iff. intros d'. by rewrite list_elem_of_singleton.
Qed.

(** X9.  What the listing shows can be bought.  On a live store with
    unique, well-formed identifiers (each [_id] prints as 24 lower-case
    hexadecimal digits), take any item of the unfiltered listing and check
    out its [id] with a quantity [q] whose normalised value converts to a
    float: the checkout returns a receipt with exactly one line, for that
    [id], with the item's name and price and the quantity [max(1, q)]. *)
Theorem listed_item_checks_out fails uuid coll limit vs v q :
  unique_ids coll ->
  (forall d, d ∈ coll -> canonical (str (_id d))) ->
  fst (list_models (Some coll) None None limit) = Some (Ok vs) ->
  v ∈ vs ->
  is_Some (Py.float_of_int (Z.max 1 q)) ->
  exists r db' l,
    checkout fails uuid (Some coll)
      {| items := [ {| item_id := id v; qty := q |} ] |} = (Ok r, db') /\
    receipt_items r = [l] /\
    line_id l = id v /\
    line_name l = name (fields v) /\
    line_price l = price (fields v) /\
    line_qty l = Z.max 1 q.
Proof.
  intros Hu Hwf Hl Hv Hfit.
  assert (exists d, d ∈ coll /\ v = convert d) as (d & Hd & ->).
  { unfold list_models, get_documents, find in Hl. simpl in Hl.
    injection Hl as <-.
    apply list_elem_of_fmap in Hv as (d & -> & Hd).
    apply subseteq_take in Hd. apply list_elem_of_filter in Hd as [_ Hd].
    by exists d. }
  cbn [id fields convert].
  set (payload := {| items := [ {| item_id := str (_id d); qty := q |} ] |}).
  pose proof (found_of_single coll d q Hu Hd (Hwf d Hd)) as Hf.
  fold payload in Hf.
  destruct (checkout_returns fails uuid coll payload) as (r & db' & Hr).
  { done. }
  { by rewrite Hf. }
  { by repeat constructor. }
  pose proof (receipt_lines _ _ _ _ _ _ Hr) as HF. rewrite Hf in HF.
  apply Forall2_cons_inv_l in HF as (l & ls & [_ Hline] & Hnil & Hls).
  apply Forall2_nil_inv_l in Hnil as ->.
  exists r, db', l. split; [done|]. split; [done|].
  rewrite Hline. cbn [line_id line_name line_price line_qty make_line].
  repeat split. unfold qty_for. rewrite qty_map_lookup.
  unfold last_entry, payload. cbn [items].
  rewrite filter_cons, decide_True by done. reflexivity.
Qed.

Lemma listed_item_checks_out_witness :
  exists r db' l,
    checkout no_failures "order-1" (Some demo_store)
      {| items := [ {| item_id := id (convert scout_doc); qty := 0 |} ] |}
      = (Ok r, db') /\
    receipt_items r = [l] /\
    line_id l = id (convert scout_doc) /\
    line_name l = name (fields (convert scout_doc)) /\
    line_price l = price (fields (convert scout_doc)) /\
    line_qty l = Z.max 1 0.
Proof.
  apply (listed_item_checks_out no_failures "order-1" demo_store 50
           (convert <$> demo_store) (convert scout_doc) 0).
  - apply (bool_decide_unpack _). by vm_compute.
  - intros d Hd.
    repeat (apply elem_of_cons in Hd as [->|Hd]; [by split|]).
    by apply elem_of_nil in Hd.
  - reflexivity.
  - right. right. left.
  - exists 1%float. by vm_compute.
Defined.

(* ===================================================================== *)
(** * The diagnostic *)
(* ===================================================================== *)

(** The number of characters of a text held as UTF-8 bytes. *)
Fixpoint char_count (s : string) : nat :=
  match s with
  | EmptyString => 0
  | String c r => if is_continuation c then char_count r else S (char_count r)
  end.

Lemma take_chars_count n msg : char_count (take_chars n msg) <= n.
Proof.
  revert n. induction msg as [|c msg IH]; intros n; simpl; [lia|].
  destruct (is_continuation c) eqn:E; simpl; rewrite ?E; [apply IH|].
  destruct n as [|n]; simpl; rewrite ?E; [lia|].
  specialize (IH n). lia.
Qed.

Lemma take_chars_prefix n msg : String.prefix (take_chars n msg) msg = true.
Proof.
  revert n. induction msg as [|c msg IH]; intros n; simpl; [done|].
  destruct (is_continuation c); simpl.
  - destruct (ascii_dec c c); [apply IH|done].
  - destruct n as [|n]; simpl; [done|].
    destruct (ascii_dec c c); [apply IH|done].
Qed.

Lemma take_chars_short n msg : char_count msg <= n -> take_chars n msg = msg.
Proof.
  revert n. induction msg as [|c msg IH]; intros n; simpl; [done|].
  destruct (is_continuation c).
  - intros H. f_equal. by apply IH.
  - destruct n as [|n]; [lia|]. intros H. f_equal. apply IH. lia.
Qed.

(** The two keys [database_url] and [database_name] of the
    diagnostic report on the environment only: each is "Set" when its
    variable is there and not empty, "Not Set" otherwise.  What the handle
    wrote under them on the way (the "Configured" mark, the name of the
    database) is overwritten before the response goes out, so two processes
    with the same environment answer the same under these keys whatever
    their database. *)
Lemma test_database_reports_environment db db' env_url env_name :
  database_url (test_database db env_url env_name) =
    Some (if Py.truthy env_url then "✅ Set" else "❌ Not Set") /\
  database_name (test_database db env_url env_name) =
    Some (if Py.truthy env_name then "✅ Set" else "❌ Not Set") /\
  database_url (test_database db env_url env_name) =
    database_url (test_database db' env_url env_name) /\
  database_name (test_database db env_url env_name) =
    database_name (test_database db' env_url env_name).
Proof. repeat split. Qed.

(** X10.  The diagnostic says "Connected & Working" exactly when there is
    a handle, its name can be read and its collections can be listed; it
    then shows the first ten collection names at most, and shows none in
    every other case.  It never answers the "Not Available" it starts
    from, and it says "Connected" exactly when there is a handle whose name
    can be read.  Under [database_url] and [database_name] it reports on
    the two environment variables only ("Set" when there and not empty):
    what the handle wrote there on the way, the name of the database
    included, is overwritten. *)
Theorem test_database_status db env_url env_name :
  (database (test_database db env_url env_name) = "✅ Connected & Working" <->
   exists h nm names,
     db = Some h /\ db_name h = Returns nm /\
     list_collection_names h = Returns names) /\
  (forall h nm names,
     db = Some h -> db_name h = Returns nm ->
     list_collection_names h = Returns names ->
     collections (test_database db env_url env_name) = take 10 names) /\
  (database (test_database db env_url env_name) <> "✅ Connected & Working" ->
   collections (test_database db env_url env_name) = []) /\
  length (collections (test_database db env_url env_name)) <= 10 /\
  database (test_database db env_url env_name) <> "❌ Not Available" /\
  (connection_status (test_database db env_url env_name) = "Connected" <->
   exists h nm, db = Some h /\ db_name h = Returns nm) /\
  database_url (test_database db env_url env_name) =
    Some (if Py.truthy env_url then "✅ Set" else "❌ Not Set") /\
  database_name (test_database db env_url env_name) =
    Some (if Py.truthy env_name then "✅ Set" else "❌ Not Set").
Proof.
  unfold test_database.
  destruct db as [[[nm|e] [names|e']]|]; cbn;
    repeat match goal with
           | |- _ /\ _ => split
           | |- _ <-> _ => split
           end;
    intros;
    repeat match goal with
           | H : exists _, _ |- _ => destruct H
           | H : _ /\ _ |- _ => destruct H
           end;
    simplify_eq/=; try done; try (by eauto 10);
    try (rewrite ?length_take; lia).
Qed.

(** X11.  When the collections cannot be listed, the diagnostic shows the
    first fifty characters of the exception's message after "Connected but
    Error: ": the whole message when it has at most fifty characters, a
    prefix of it otherwise, and never more than fifty characters of it
    (characters, not bytes: a message of sixty two-byte letters is cut
    after the fiftieth letter). *)
Theorem test_database_listing_error h nm e env_url env_name :
  db_name h = Returns nm ->
  list_collection_names h = Raises e ->
  database (test_database (Some h) env_url env_name) =
    "⚠️  Connected but Error: " +:+ first_50 e /\
  char_count (first_50 e) <= 50 /\
  String.prefix (first_50 e) e = true /\
  (char_count e <= 50 -> first_50 e = e) /\
  connection_status (test_database (Some h) env_url env_name) = "Connected" /\
  collections (test_database (Some h) env_url env_name) = [].
Proof.
  intros Hn Hl. unfold test_database. rewrite Hn, Hl. cbn.
  split; [done|]. split; [apply take_chars_count|].
  split; [apply take_chars_prefix|]. split; [apply take_chars_short|done].
Qed.

Lemma test_database_listing_error_witness :
  database
    (test_database
       (Some {| db_name := Returns "shop";
                list_collection_names := Raises "not authorized" |})
       (Some "mongodb://localhost") None) =
    "⚠️  Connected but Error: " +:+ first_50 "not authorized" /\
  char_count (first_50 "not authorized") <= 50 /\
  String.prefix (first_50 "not authorized") "not authorized" = true /\
  (char_count "not authorized" <= 50 ->
   first_50 "not authorized" = "not authorized") /\
  connection_status
    (test_database
       (Some {| db_name := Returns "shop";
                list_collection_names := Raises "not authorized" |})
       (Some "mongodb://localhost") None) = "Connected" /\
  collections
    (test_database
       (Some {| db_name := Returns "shop";
                list_collection_names := Raises "not authorized" |})
       (Some "mongodb://localhost") None) = [].
Proof.
  apply (test_database_listing_error
           {| db_name := Returns "shop";
              list_collection_names := Raises "not authorized" |}
           "shop" "not authorized" (Some "mongodb://localhost") None);
    reflexivity.
Defined.

(** Sixty times "é" (two bytes each) is cut to fifty times "é". *)
Example first_50_counts_characters :
  char_count "éééééééééééééééééééééééééééééééééééééééééééééééééééééééééééé" = 60 /\
  String.length "éééééééééééééééééééééééééééééééééééééééééééééééééééééééééééé" = 120 /\
  first_50 "éééééééééééééééééééééééééééééééééééééééééééééééééééééééééééé" = "éééééééééééééééééééééééééééééééééééééééééééééééééé".
Proof. repeat split. Qed.

(* ===================================================================== *)
(** * The counters for identifiers written in canonical form *)
(* ===================================================================== *)

Lemma canonical_key its d i :
  i ∈ its -> canonical (item_id i) -> of_str (item_id i) = _id d ->
  exists j, last_entry (str (_id d)) its = Some j.
Proof.
  intros Hi [_ Hc] He. rewrite <- He, Hc. unfold last_entry.
  destruct (last (filter (λ i0, item_id i0 = item_id i) its)) as [j|] eqn:El;
    [by exists j|].
  apply last_None in El.
  assert (i ∈ filter (λ i0, item_id i0 = item_id i) its) as Hin
    by (by apply list_elem_of_filter).
  rewrite El in Hin. by apply elem_of_nil in Hin.
Qed.

(** X12.  Take a store with unique identifiers and a request whose valid
    identifiers are all written in canonical form (as [str(_id)] prints
    them), resolving to at least one item.  After [checkout] every document
    is the one before with its [downloads] raised by an amount [n]: for a
    resolved document, [n] is [max(1, q)] for the quantity [q] of the last
    entry of the request under the document's identifier, or 0 when the
    update for that document raised; for every other document [n] is 0.
    The response is the one [checkout] gives when no update raises, and
    when the normalised quantities convert to floats it is a receipt whose
    lines show those same quantities. *)
Theorem checkout_counts_canonical fails uuid coll payload :
  unique_ids coll ->
  (forall i, i ∈ items payload -> is_valid (item_id i) = true ->
             canonical (item_id i)) ->
  found_of payload coll <> [] ->
  (exists coll',
     snd (checkout fails uuid (Some coll) payload) = Some coll' /\
     Forall2
       (λ d d',
          exists n,
            d' = inc_downloads n d /\
            downloads (body d') = (downloads (body d) + n)%Z /\
            (_id d ∈ lookup_ids (item_id <$> items payload) ->
             exists i,
               last_entry (str (_id d)) (items payload) = Some i /\
               n = if fails (_id d) (Z.max 1 (qty i)) then 0%Z
                   else Z.max 1 (qty i)) /\
            (_id d ∉ lookup_ids (item_id <$> items payload) -> n = 0%Z))
       coll coll') /\
  fst (checkout fails uuid (Some coll) payload) =
    fst (checkout (λ _ _, false) uuid (Some coll) payload) /\
  (Forall (λ i, is_Some (Py.float_of_int (Z.max 1 (qty i)))) (items payload) ->
   exists r,
     fst (checkout fails uuid (Some coll) payload) = Ok r /\
     Forall2
       (λ d l,
          line_id l = str (_id d) /\
          exists i,
            last_entry (line_id l) (items payload) = Some i /\
            line_qty l = Z.max 1 (qty i))
       (found_of payload coll) (receipt_items r)).
Proof.
  intros Hu Hcan Hf.
  assert (items payload <> []) as Hne.
  { intros E. apply Hf. by apply found_of_no_items. }
  assert (forall d, _id d ∈ lookup_ids (item_id <$> items payload) ->
            exists i, last_entry (str (_id d)) (items payload) = Some i /\
                      qty_for (qty_map (items payload)) d = Z.max 1 (qty i))
    as Hkey.
  { intros d Hin. apply lookup_ids_elem in Hin as (k & Hk & Hv & He).
    apply list_elem_of_fmap in Hk as (i & -> & Hi).
    destruct (canonical_key (items payload) d i Hi (Hcan i Hi Hv) He)
      as [j Hj].
    exists j. split; [done|]. unfold qty_for. by rewrite qty_map_lookup, Hj. }
  split; [|split].
  - eexists. split.
    { rewrite checkout_found by done. cbn [snd]. unfold found_of.
      rewrite counter_loop_found by done. reflexivity. }
    apply Forall2_fmap_r, Forall_Forall2_diag, Forall_forall.
    intros d _. cbn [compose].
    destruct (decide (_id d ∈ lookup_ids (item_id <$> items payload)))
      as [Hin|Hout].
    + destruct (Hkey d Hin) as (i & Hi & Hq). unfold counted. rewrite Hq.
      destruct (fails (_id d) (Z.max 1 (qty i))) eqn:Hfl.
      * exists 0%Z. rewrite inc_downloads_0.
        split; [done|]. split; [lia|]. split; [|done].
        intros _. exists i. by rewrite Hfl.
      * exists (Z.max 1 (qty i)). split; [done|]. split; [done|].
        split; [|done]. intros _. exists i. by rewrite Hfl.
    + exists 0%Z. rewrite inc_downloads_0.
      split; [done|]. split; [lia|]. split; [done|done].
  - apply checkout_response_ignores_failures.
  - intros Hfit.
    destruct (checkout_returns fails uuid coll payload Hne Hf Hfit)
      as (r & db' & Hr).
    exists r. split; [by rewrite Hr|].
    pose proof (receipt_lines _ _ _ _ _ _ Hr) as HF.
    apply Forall2_same_length_lookup. apply Forall2_same_length_lookup in HF.
    destruct HF as [Hlen HF]. split; [done|].
    intros n d l Hd Hl. destruct (HF n d l Hd Hl) as [_ ->].
    cbn [line_id line_qty make_line]. split; [done|].
    apply list_elem_of_lookup_2 in Hd.
    unfold found_of, find_id_in in Hd.
    apply list_elem_of_filter in Hd as [Hin _].
    destruct (Hkey d Hin) as (i & Hi & Hq). by exists i.
Qed.

Lemma checkout_counts_canonical_witness :
  exists coll',
    snd (checkout scout_update_fails "order-1" (Some demo_store)
           (request [(guardian_id, 2%Z); (scout_id, 4%Z); (guardian_id, 5%Z)]))
      = Some coll' /\
    (λ d, downloads (body d)) <$> demo_store = [0; 0; 0]%Z /\
    (λ d, downloads (body d)) <$> coll' = [0; 5; 0]%Z.
Proof.
  destruct (checkout_counts_canonical scout_update_fails "order-1" demo_store
              (request [(guardian_id, 2%Z); (scout_id, 4%Z); (guardian_id, 5%Z)]))
    as ((coll' & Hs & _) & _ & _).
  - apply (bool_decide_unpack _). by vm_compute.
  - intros i Hi _.
    repeat (apply elem_of_cons in Hi as [->|Hi]; [by split|]).
    by apply elem_of_nil in Hi.
  - discriminate.
  - exists coll'. split; [exact Hs|]. split; [reflexivity|].
    assert (Some coll' =
            Some [runner_doc; inc_downloads 5 guardian_doc; scout_doc]) as E
      by (rewrite <- Hs; by vm_compute).
    injection E as ->. reflexivity.
Defined.
